(** * halotools: occupation, quenching and halo-profile models

    A shallow embedding of [halotools/halo_occupation.py] and
    [halotools/halo_profile_components.py].

    Conventions of the embedding.
    - A Python [float] (IEEE double) is a real number of [R]; rounding,
      overflow, infinities and NaN are not represented.  The conversion
      [float(z)] of an integer is exact where it succeeds, and fails on
      the integers beyond the range of the doubles as it does in
      Python.  Where a
      statement restricts its arguments ([c > 0], [0 < r <= 1],
      [sigma_logM > 0]) the restriction keeps the divisions and the
      logarithms of the code inside their domains, where Rocq's total
      [/] and [ln] are the operations the code performs.
    - A one-dimensional numpy array of floats is a [list R].
    - A raised exception is a value of [exn]; code that may raise returns
      a [result]; code that may also warn returns an [io].
    - Functions of scipy and numpy whose implementation is outside the
      repository ([scipy.special.erf], [numpy.linalg.solve],
      [scipy.interpolate.UnivariateSpline]) and the constants of the
      [defaults] module are operations of type classes. *)

From Stdlib Require Import String ZArith Bool List Reals Lra Lia.
From Stdlib Require Import ClassicalEpsilon FunctionalExtensionality.
Import ListNotations.

Open Scope string_scope.
Open Scope list_scope.
Open Scope R_scope.

(* ================================================================== *)
(** ** Python values, exceptions and warnings *)

Module Py.

Inductive exn : Type :=
| TypeError (msg : string)
| KeyError (key : string)
| IndexError (msg : string)
| ValueError (msg : string)
| OverflowError (msg : string)
| LinAlgError (msg : string).

Inductive result (A : Type) : Type :=
| Ok (a : A)
| Raise (e : exn).
Arguments Ok {A} a.
Arguments Raise {A} e.

Definition bind {A B : Type} (m : result A) (f : A -> result B) : result B :=
  match m with
  | Ok a => f a
  | Raise e => Raise e
  end.

(** Code that calls [warnings.warn]: the warnings issued so far, in
    order, and the outcome. *)
Definition io (A : Type) : Type := (list string * result A)%type.

Definition ret {A : Type} (a : A) : io A := ([], Ok a).
Definition raise {A : Type} (e : exn) : io A := ([], Raise e).
Definition warn (msg : string) : io unit := ([msg], Ok tt).
Definition lift {A : Type} (r : result A) : io A := ([], r).
Definition iobind {A B : Type} (m : io A) (f : A -> io B) : io B :=
  match m with
  | (w, Ok a) => let (w', r) := f a in ((w ++ w')%list, r)
  | (w, Raise e) => (w, Raise e)
  end.

(** The objects that reach the functions of the two modules. *)
Inductive value : Type :=
| PyNone
| PyBool (b : bool)
| PyInt (z : Z)
| PyFloat (x : R)
| PyStr (s : string)
| NdArray (a : list R).

(** [float(z)] for an [int] of Python 3, where every integer is an
    [int].  The conversion rounds to the nearest double, ties to even,
    and raises [OverflowError] when the result would exceed the largest
    double [2**1024 - 2**971]: that is, for a magnitude of
    [2**1024 - 2**970] or more.  Below that bound the double is taken to
    be the integer itself, as a real number. *)
Definition float_max_int : Z := (2 ^ 1024 - 2 ^ 970)%Z.

Definition msg_int_too_large : string := "int too large to convert to float".

Definition float_of_int (z : Z) : result R :=
  if (Z.abs z <? float_max_int)%Z then Ok (IZR z)
  else Raise (OverflowError msg_int_too_large).

(** A [dict] with string keys, in insertion order. *)
Definition dict (V : Type) : Type := list (string * V).

Fixpoint getitem {V : Type} (d : dict V) (k : string) : result V :=
  match d with
  | [] => Raise (KeyError k)
  | (k', v) :: d' => if String.eqb k' k then Ok v else getitem d' k
  end.

(** [l[i]] for a Python list and an index that is not negative. *)
Definition getindex {V : Type} (l : list V) (i : nat) : result V :=
  match nth_error l i with
  | Some v => Ok v
  | None => Raise (IndexError "list index out of range")
  end.

End Py.
Export Py.

Declare Scope py_scope.
Delimit Scope py_scope with py.
Notation "x <- m ;; f" := (bind m (fun x => f))
  (at level 61, m at next level, right associativity) : py_scope.
Notation "x <~ m ;; f" := (iobind m (fun x => f))
  (at level 61, m at next level, right associativity) : py_scope.
Open Scope py_scope.

(* ================================================================== *)
(** ** numpy arrays *)

Module Np.

Definition zeros (n : nat) : list R := repeat 0 n.

(** [a > x], element-wise. *)
Definition Rgtb (a x : R) : bool := if Rlt_dec x a then true else false.
Definition Rltb (a x : R) : bool := if Rlt_dec a x then true else false.

(** [a[mask]] for a boolean mask of the length of [a]. *)
Fixpoint mask_select {A : Type} (a : list A) (mask : list bool) : list A :=
  match a, mask with
  | x :: a', b :: mask' =>
      if b then x :: mask_select a' mask' else mask_select a' mask'
  | _, _ => []
  end.

Definition count_true (mask : list bool) : nat :=
  length (filter (fun b => b) mask).

(** The positions of [a] where [mask] holds take the elements of [v] in
    order. *)
Fixpoint scatter (a : list R) (mask : list bool) (v : list R) : list R :=
  match a, mask with
  | x :: a', true :: mask' =>
      match v with
      | y :: v' => y :: scatter a' mask' v'
      | [] => x :: scatter a' mask' []
      end
  | x :: a', false :: mask' => x :: scatter a' mask' v
  | _, _ => a
  end.

(** [a[mask] = v]: as many values as the mask selects, or one value that
    is broadcast; anything else is a [ValueError]. *)
Definition mask_assign (a : list R) (mask : list bool) (v : list R)
  : result (list R) :=
  if Nat.eqb (length v) (count_true mask) then Ok (scatter a mask v)
  else match v with
       | [y] => Ok (scatter a mask (repeat y (count_true mask)))
       | _ => Raise (ValueError "boolean index assignment: shape mismatch")
       end.

(** [a[mask] = y] for a scalar [y]. *)
Fixpoint mask_fill (a : list R) (mask : list bool) (y : R) : list R :=
  match a, mask with
  | x :: a', b :: mask' => (if b then y else x) :: mask_fill a' mask' y
  | _, _ => a
  end.

(** Element-wise product of two arrays of one length. *)
Fixpoint mul (a b : list R) : list R :=
  match a, b with
  | x :: a', y :: b' => x * y :: mul a' b'
  | _, _ => []
  end.

(** Element-wise sum of two arrays of one length. *)
Fixpoint add (a b : list R) : list R :=
  match a, b with
  | x :: a', y :: b' => x + y :: add a' b'
  | _, _ => []
  end.

(** [a.reshape(rows, cols)] for a flat array: [rows] consecutive runs of
    [cols] elements; the sizes must agree. *)
Fixpoint chunks (rows cols : nat) (a : list R) : list (list R) :=
  match rows with
  | O => []
  | S rows' => firstn cols a :: chunks rows' cols (skipn cols a)
  end.

Definition reshape (rows cols : nat) (a : list R) : result (list (list R)) :=
  if Nat.eqb (length a) (rows * cols) then Ok (chunks rows cols a)
  else Raise (ValueError "cannot reshape array").

(** [m.transpose()] for a matrix of [cols] columns given by its rows. *)
Definition transpose (cols : nat) (m : list (list R)) : list (list R) :=
  map (fun j => map (fun row => nth j row 0) m) (seq 0 cols).

(** [np.linspace(start, stop, num)]. *)
Definition linspace (start stop : R) (num : nat) : list R :=
  match num with
  | O => []
  | S O => [start]
  | _ => map (fun i => start + INR i * ((stop - start) / INR (num - 1)))
             (seq 0 num)
  end.

(** [10.**x]. *)
Definition pow10 (x : R) : R := Rpower 10 x.

(** The least integer that is not below [x]. *)
Definition ceil (x : R) : Z := (- Int_part (- x))%Z.

(** [np.arange(start, stop, step)]: [ceil((stop - start)/step)] values
    [start + i*step]. *)
Definition arange (start stop step : R) : list R :=
  map (fun i => start + INR i * step)
      (seq 0 (Z.to_nat (ceil ((stop - start) / step)))).

(** [np.where(a == x)[0]]: the indices of the elements equal to [x]. *)
Fixpoint where_eq_from (i : nat) (a : list R) (x : R) : list nat :=
  match a with
  | [] => []
  | y :: a' =>
      if Req_dec_T y x then i :: where_eq_from (S i) a' x
      else where_eq_from (S i) a' x
  end.

Definition where_eq (a : list R) (x : R) : list nat := where_eq_from 0 a x.

End Np.

(* ================================================================== *)
(** ** External numerical functions *)

(** [scipy.special.erf]. *)
Class SpecialFunctions : Type := { erf : R -> R }.

(** What the embedding uses of [erf]: its range. *)
Class SpecialFunctionsSpec (SF : SpecialFunctions) : Prop :=
  { erf_range : forall x : R, -1 <= erf x <= 1 }.

(* ================================================================== *)
(** ** halo_occupation.py *)

Definition anatoly_concentration (logM : list R) : list R :=
  let masses := map (fun z_m => fst z_m + snd z_m)
                    (combine (Np.zeros (length logM)) (map Np.pow10 logM)) in
  let c0 := 9.6 in
  let Mpiv := 1e12 in
  let a := -0.075 in
  map (fun m => c0 * Rpower (m / Mpiv) a) masses.

Definition cumulative_NFW_PDF (x c : R) : R :=
  let norm := ln (1 + c) - c / (1 + c) in
  (ln (1 + x * c) - x * c / (1 + x * c)) / norm.

Module Zheng07_HOD_Model.

Record t : Type := mk
  { hod_model_nickname : string;
    publication : string;
    parameter_dict : dict R;
    (** [self.threshold] exists once [published_parameters] has run *)
    threshold : option R }.

Section Methods.
Context {SF : SpecialFunctions}.

Definition mean_ncen (self : t) (logM : value) : result (list R) :=
  match logM with
  | NdArray logM =>
      logMmin_cen <- getitem (parameter_dict self) "logMmin_cen" ;;
      sigma_logM <- getitem (parameter_dict self) "sigma_logM" ;;
      Ok (map (fun x => 0.5 * (1.0 + erf ((x - logMmin_cen) / sigma_logM)))
              logM)
  | _ => Raise (TypeError "Input logM to mean_ncen must be a numpy array")
  end.

Definition mean_nsat (self : t) (logM : value) : result (list R) :=
  match logM with
  | NdArray logM =>
      let halo_mass := map Np.pow10 logM in
      logM0_sat <- getitem (parameter_dict self) "logM0_sat" ;;
      let M0 := Np.pow10 logM0_sat in
      logM1_sat <- getitem (parameter_dict self) "logM1_sat" ;;
      let M1 := Np.pow10 logM1_sat in
      let mean_nsat := Np.zeros (length logM) in
      let idx_nonzero_satellites :=
        map (fun h => Np.Rgtb (h - M0) 0) halo_mass in
      ncen <- mean_ncen self
                (NdArray (Np.mask_select logM idx_nonzero_satellites)) ;;
      alpha_sat <- getitem (parameter_dict self) "alpha_sat" ;;
      Np.mask_assign mean_nsat idx_nonzero_satellites
        (Np.mul ncen
           (map (fun h => Rpower ((h - M0) / M1) alpha_sat)
                (Np.mask_select halo_mass idx_nonzero_satellites)))
  | _ => Raise (TypeError "Input logM to mean_ncen must be a numpy array")
  end.

Definition mean_concentration (self : t) (logM : list R) : list R :=
  anatoly_concentration logM.

End Methods.

Definition msg_threshold_unspecified : string :=
  "HOD threshold unspecified: setting to -19.5".
Definition msg_threshold_not_scalar : string :=
  "Input luminosity threshold must be a scalar".
Definition msg_threshold_no_match : string :=
  "Input luminosity threshold does not match any of the Table 1 values of Zheng et al. 2007.".

Definition set_threshold (self : t) (x : R) : t :=
  mk (hod_model_nickname self) (publication self) (parameter_dict self)
     (Some x).

Definition set_parameter_dict (self : t) (d : dict R) : t :=
  mk (hod_model_nickname self) (publication self) d (threshold self).

(** [published_parameters] sets [self.threshold] and returns the
    parameter dictionary; the result carries the updated instance.
    [isinstance(threshold, int)] holds of a [bool] as well, and
    [float(True)] is [1.0]; [float(threshold)] raises [OverflowError] on
    an [int] beyond the range of the doubles, before the table is
    consulted. *)
Definition published_parameters (self : t) (threshold : value)
  : io (t * dict R) :=
  self <~ match threshold with
          | PyNone =>
              _ <~ warn msg_threshold_unspecified ;;
              ret (set_threshold self (-19.5))
          | PyBool b => ret (set_threshold self (if b then 1 else 0))
          | PyInt z =>
              x <~ lift (float_of_int z) ;;
              ret (set_threshold self x)
          | PyFloat x => ret (set_threshold self x)
          | _ => raise (TypeError msg_threshold_not_scalar)
          end ;;
  let logMmin_cen_array := [11.35;11.46;11.6;11.75;12.02;12.3;12.79;13.38;14.22] in
  let sigma_logM_array := [0.25;0.24;0.26;0.28;0.26;0.21;0.39;0.51;0.77] in
  let logM0_array := [11.2;10.59;11.49;11.69;11.38;11.84;11.92;13.94;14.0] in
  let logM1_array := [12.4;12.68;12.83;13.01;13.31;13.58;13.94;13.91;14.69] in
  let alpha_sat_array := [0.83;0.97;1.02;1.06;1.06;1.12;1.15;1.04;0.87] in
  let threshold_array := Np.arange (-22) (-17.5) 0.5 in
  let threshold_array := rev threshold_array in
  let threshold_index :=
    match Zheng07_HOD_Model.threshold self with
    | Some x => Np.where_eq threshold_array x
    | None => []
    end in
  if Nat.eqb (length threshold_index) 1 then
    let i := hd 0%nat threshold_index in
    parameter_dict <~
      lift (logMmin_cen <- getindex logMmin_cen_array i ;;
            sigma_logM <- getindex sigma_logM_array i ;;
            logM0_sat <- getindex logM0_array i ;;
            logM1_sat <- getindex logM1_array i ;;
            alpha_sat <- getindex alpha_sat_array i ;;
            Ok [("logMmin_cen", logMmin_cen);
                ("sigma_logM", sigma_logM);
                ("logM0_sat", logM0_sat);
                ("logM1_sat", logM1_sat);
                ("alpha_sat", alpha_sat);
                ("fconc", 1.0)]) ;;
    ret (self, parameter_dict)
  else raise (TypeError msg_threshold_no_match).

(** [HOD_Model.__init__] stores the nickname; [Zheng07_HOD_Model.__init__]
    then stores the publication and the parameter dictionary, its own or
    the published one.  Until it is assigned, the [parameter_dict] field
    of the record is empty and is not read. *)
Definition __init__ (parameter_dict : option (dict R)) (threshold : value)
  : io t :=
  let model_nickname := "Zheng07" in
  let self := mk model_nickname "arXiv:0703457" [] None in
  match parameter_dict with
  | None =>
      sd <~ published_parameters self threshold ;;
      ret (set_parameter_dict (fst sd) (snd sd))
  | Some d => ret (set_parameter_dict self d)
  end.

End Zheng07_HOD_Model.


(* ------------------------------------------------------------------ *)
(** *** The quenching model *)

(** The [defaults] module is not part of the sources at hand: its
    constants are taken as parameters. *)
Class Defaults : Type :=
  { default_quenching_parameters : dict (list R);
    default_Npts_radius_array : nat;
    default_min_rad : R;
    default_Npts_concen_array : nat;
    min_permitted_conc : R;
    max_permitted_conc : R }.

(** [numpy.linalg.solve(a, b)] for a two-dimensional [a], given by its
    rows, and a one-dimensional [b]. *)
Class LinearAlgebra : Type :=
  { linalg_solve : list (list R) -> list R -> result (list R) }.

(** The product of a matrix, given by its rows, and a vector. *)
Fixpoint dot (a b : list R) : R :=
  match a, b with
  | x :: a', y :: b' => x * y + dot a' b'
  | _, _ => 0
  end.

Definition matvec (a : list (list R)) (x : list R) : list R :=
  map (fun row => dot row x) a.

Definition square (n : nat) (a : list (list R)) : Prop :=
  length a = n /\ Forall (fun row => length row = n) a.

(** A square matrix is regular when every right-hand side has exactly
    one solution, and singular otherwise. *)
Definition regular (n : nat) (a : list (list R)) : Prop :=
  forall b : list R, length b = n ->
    exists x : list R,
      length x = n /\ matvec a x = b
      /\ forall x' : list R, length x' = n -> matvec a x' = b -> x' = x.

Definition msg_singular : string := "Singular matrix".

(** What the embedding uses of [numpy.linalg.solve] on a square system:
    in exact arithmetic it returns the solution of a regular system and
    raises [LinAlgError] on a singular one. *)
Class LinearAlgebraSpec (LA : LinearAlgebra) : Prop :=
  { solve_regular :
      forall (a : list (list R)) (b : list R),
        square (length b) a -> regular (length b) a ->
        exists x : list R,
          linalg_solve a b = Ok x
          /\ length x = length b /\ matvec a x = b;
    solve_singular :
      forall (a : list (list R)) (b : list R),
        square (length b) a -> ~ regular (length b) a ->
        linalg_solve a b = Raise (LinAlgError msg_singular) }.

Module vdB03_Quenching_Model.

Record t : Type := mk
  { quenching_model_nickname : string;
    publication : string;
    parameter_dict : dict (list R);
    central_quenching_polynomial_coefficients : list R;
    satellite_quenching_polynomial_coefficients : list R }.

(** The loop [for n,coeff in enumerate(coefficients)], entered at index
    [n] with the array accumulated so far. *)
Fixpoint accumulate_terms (n : nat) (coefficients logM acc : list R)
  : list R :=
  match coefficients with
  | [] => acc
  | coeff :: rest =>
      accumulate_terms (S n) rest logM
        (Np.add acc (map (fun x => coeff * x ^ n) logM))
  end.

Definition quenching_polynomial (self : t) (logM coefficients : list R)
  : result (list R) :=
  let mean_quenched_fractions := Np.zeros (length logM) in
  logM_abcissa <- getitem (parameter_dict self) "logM_abcissa" ;;
  let polynomial_degree := length logM_abcissa in
  let mean_quenched_fractions :=
    accumulate_terms 0 coefficients logM mean_quenched_fractions in
  let test_negative :=
    map (fun v => Np.Rltb v 0) mean_quenched_fractions in
  let mean_quenched_fractions :=
    Np.mask_fill mean_quenched_fractions test_negative 0 in
  let test_exceeds_unity :=
    map (fun v => Np.Rgtb v 1) mean_quenched_fractions in
  let mean_quenched_fractions :=
    Np.mask_fill mean_quenched_fractions test_exceeds_unity 1 in
  Ok mean_quenched_fractions.

Definition mean_quenched_fraction_centrals (self : t) (logM : list R)
  : result (list R) :=
  let coefficients := central_quenching_polynomial_coefficients self in
  quenching_polynomial self logM coefficients.

Definition mean_quenched_fraction_satellites (self : t) (logM : list R)
  : result (list R) :=
  let coefficients := satellite_quenching_polynomial_coefficients self in
  quenching_polynomial self logM coefficients.

(** The loop [for i in np.arange(len(logM_abcissa)-1)]: each pass appends
    the abscissas raised to [i+1] to the flat array. *)
Fixpoint append_powers (indices : list nat) (logM_abcissa columns : list R)
  : list R :=
  match indices with
  | [] => columns
  | i :: rest =>
      append_powers rest logM_abcissa
        (columns ++ map (fun x => x ^ (i + 1)) logM_abcissa)
  end.

Section Solve.
Context {LA : LinearAlgebra}.

Definition solve_for_quenching_polynomial_coefficients
  (logM_abcissa quenched_fractions : list R) : result (list R) :=
  let ones := map (fun z => z + 1) (Np.zeros (length logM_abcissa)) in
  let columns := ones in
  let columns :=
    append_powers (seq 0 (length logM_abcissa - 1)) logM_abcissa columns in
  reshaped <- Np.reshape (length logM_abcissa) (length logM_abcissa) columns ;;
  let quenching_model_matrix := Np.transpose (length logM_abcissa) reshaped in
  linalg_solve quenching_model_matrix quenched_fractions.

Context {D : Defaults}.

Definition __init__ (parameter_dict : option (dict (list R))) : result t :=
  let model_nickname := "vdB03" in
  let publication := "arXiv:0210495v3" in
  let parameter_dict :=
    match parameter_dict with
    | None => default_quenching_parameters
    | Some d => d
    end in
  abcissa <- getitem parameter_dict "logM_abcissa" ;;
  central_ordinates <- getitem parameter_dict "central_ordinates" ;;
  central <- solve_for_quenching_polynomial_coefficients
               abcissa central_ordinates ;;
  abcissa <- getitem parameter_dict "logM_abcissa" ;;
  satellite_ordinates <- getitem parameter_dict "satellite_ordinates" ;;
  satellite <- solve_for_quenching_polynomial_coefficients
                 abcissa satellite_ordinates ;;
  Ok (mk model_nickname publication parameter_dict central satellite).

End Solve.

End vdB03_Quenching_Model.

(* ================================================================== *)
(** ** halo_profile_components.py *)

(** What the code reads of an astropy cosmology: [H0], the critical
    density at a redshift, converted to solar masses per cubic
    megaparsec, and [Om0]. *)
Record astropy_cosmology : Type :=
  { H0 : R;
    critical_density : R -> R;
    Om0 : R }.

(** [scipy.interpolate.UnivariateSpline(x, y)]: the fitted function, or
    the exception of the fit. *)
Class Interpolate : Type :=
  { spline : list R -> list R -> result (R -> R) }.

Module HaloProfileModel.

Record t : Type := mk
  { delta_vir : R;
    redshift : R;
    cosmology : astropy_cosmology;
    cosmic_matter_density : R }.

Definition __init__ (delta_vir : value) (cosmology : astropy_cosmology)
  (redshift : value) : t :=
  let littleh := H0 cosmology / 100.0 in
  let crit_density := critical_density cosmology 0 / littleh ^ 2 in
  mk 360.0 0.0 cosmology (crit_density * Om0 cosmology).

End HaloProfileModel.

Module NFWProfile.

Record t : Type := mk
  { base : HaloProfileModel.t;
    publication : list string;
    (** the two tables exist once [build_inv_cumu_lookup_table] has run *)
    cumu_inv_func_table : option (list (R -> R));
    cumu_inv_conc_table : option (list R) }.

Definition delta_vir (self : t) : R := HaloProfileModel.delta_vir (base self).
Definition redshift (self : t) : R := HaloProfileModel.redshift (base self).
Definition cosmic_matter_density (self : t) : R :=
  HaloProfileModel.cosmic_matter_density (base self).

(** [g], [cumulative_mass_PDF] and [density_profile] at scalar
    arguments; on arrays numpy applies them element by element.  [g] and
    [cumulative_mass_PDF] do not read [self]. *)
Definition g (x : R) : R :=
  let denominator := ln (1.0 + x) - (x / (1.0 + x)) in
  1 / denominator.

Definition rho_s (self : t) (c : R) : R :=
  (delta_vir self / 3) * c * c * c * g c * cosmic_matter_density self.

Definition density_profile (self : t) (r c : R) : R :=
  let numerator := rho_s self c in
  let denominator := (c * r) * (1.0 + c * r) * (1.0 + c * r) in
  numerator / denominator.

Definition cumulative_mass_PDF (r c : R) : R := g c / g (r * c).

Section Table.
Context {D : Defaults} {I : Interpolate}.

(** The loop [for c in conc_array]. *)
Fixpoint fit_splines (conc_array radius_array : list R)
  : result (list (R -> R)) :=
  match conc_array with
  | [] => Ok []
  | c :: rest =>
      f <- spline (map (fun r => cumulative_mass_PDF r c) radius_array)
             radius_array ;;
      fs <- fit_splines rest radius_array ;;
      Ok (f :: fs)
  end.

Definition build_inv_cumu_lookup_table (self : t) : result t :=
  let Npts_radius := default_Npts_radius_array in
  let minrad := default_min_rad in
  let radius_array := Np.linspace minrad 1 Npts_radius in
  let Npts_concen := default_Npts_concen_array in
  let cmin := min_permitted_conc in
  let cmax := max_permitted_conc in
  let conc_array := Np.linspace cmin cmax Npts_concen in
  cumu_inv_funcs <- fit_splines conc_array radius_array ;;
  Ok (mk (base self) (publication self)
         (Some cumu_inv_funcs) (Some conc_array)).

(** [build_inv_cumu_table is True] holds of the object [True] alone.
    The defaults of the four parameters are 360, the WMAP5 cosmology of
    astropy, 0.0 and [False]. *)
Definition __init__ (delta_vir : value) (cosmology : astropy_cosmology)
  (redshift : value) (build_inv_cumu_table : value) : result t :=
  let self :=
    mk (HaloProfileModel.__init__ delta_vir cosmology redshift)
       ["arXiv:9611107"] None None in
  match build_inv_cumu_table with
  | PyBool true => build_inv_cumu_lookup_table self
  | _ => Ok self
  end.

End Table.

End NFWProfile.

(* ================================================================== *)
(** * Models of the external functions

    Each of the following meets the description its class gives of a
    library function: the classes are inhabited, and the theorems below
    can be applied to them. *)

(* ------------------------------------------------------------------ *)
(** ** The error function

    [erf_R x] is the integral of [exp(-t^2)] from 0 to [|x|], with the
    sign of [x], divided by the least upper bound of these integrals:
    the error function, normalised by the total mass of the half
    Gaussian (whose value, [sqrt(pi)/2], is not needed here). *)

Definition gauss (t : R) : R := exp (- (t * t)).

Lemma gauss_continuous : continuity gauss.
Proof. unfold gauss. reg. Qed.

Lemma gauss_pos (t : R) : 0 < gauss t.
Proof. apply exp_pos. Qed.

Lemma gauss_integrable (a b : R) : a <= b -> Riemann_integrable gauss a b.
Proof.
  intros Hab. apply continuity_implies_RiemannInt; [exact Hab|].
  intros x _. apply gauss_continuous.
Qed.

Definition gauss_integral (x : R) : R :=
  RiemannInt (gauss_integrable 0 (Rabs x) (Rabs_pos x)).

Lemma gauss_integral_eq (x : R) (pr : Riemann_integrable gauss 0 (Rabs x)) :
  gauss_integral x = RiemannInt pr.
Proof. apply RiemannInt_P5. Qed.

Definition lorentz (t : R) : R := / (1 + t * t).

Lemma derive_atan : derive atan derivable_pt_atan = lorentz.
Proof.
  apply functional_extensionality. intros x. unfold derive.
  rewrite derive_pt_atan. unfold lorentz, Rsqr. lra.
Qed.

Lemma lorentz_continuous : continuity lorentz.
Proof.
  unfold lorentz. intros x. reg. nra.
Qed.

Lemma atan_C1 : continuity (derive atan derivable_pt_atan).
Proof. rewrite derive_atan. apply lorentz_continuous. Qed.

Definition atan_fun : C1_fun := mkC1 atan_C1.

Lemma gauss_le_lorentz (t : R) : gauss t <= lorentz t.
Proof.
  unfold gauss, lorentz. rewrite exp_Ropp.
  apply Rinv_le_contravar; [nra|]. apply exp_ineq1_le.
Qed.

Lemma gauss_integral_bound (x : R) : 0 <= gauss_integral x < PI / 2.
Proof.
  pose proof (Rabs_pos x) as Hx.
  split.
  - apply Rle_trans with (RiemannInt (RiemannInt_P14 0 (Rabs x) 0)).
    + rewrite RiemannInt_P15. lra.
    + unfold gauss_integral. apply RiemannInt_P19; [exact Hx|].
      intros t _. unfold fct_cte. apply Rlt_le, gauss_pos.
  - assert (pr : Riemann_integrable (derive atan_fun (diff0 atan_fun)) 0 (Rabs x)).
    { apply continuity_implies_RiemannInt; [exact Hx|].
      intros t _. apply (cont1 atan_fun). }
    apply Rle_lt_trans with (RiemannInt pr).
    + unfold gauss_integral. apply RiemannInt_P19; [exact Hx|].
      intros t _. cbn [atan_fun c1 diff0]. rewrite derive_atan.
      apply gauss_le_lorentz.
    + rewrite FTC_Riemann. cbn [atan_fun c1]. rewrite atan_0.
      pose proof (atan_bound (Rabs x)). lra.
Qed.

Definition gauss_masses (v : R) : Prop := exists x : R, v = gauss_integral x.

Lemma gauss_masses_bound : bound gauss_masses.
Proof.
  exists (PI / 2). intros v [x ->].
  apply Rlt_le, gauss_integral_bound.
Qed.

Lemma gauss_masses_inhabited : exists v : R, gauss_masses v.
Proof. exists (gauss_integral 0). now exists 0. Qed.

Definition gauss_total : R :=
  proj1_sig (completeness gauss_masses gauss_masses_bound gauss_masses_inhabited).

Lemma gauss_integral_le_total (x : R) : gauss_integral x <= gauss_total.
Proof.
  unfold gauss_total.
  destruct (completeness _ _ _) as [m Hm]. cbn [proj1_sig].
  apply (proj1 Hm). now exists x.
Qed.

Lemma gauss_total_pos : 0 < gauss_total.
Proof.
  apply Rlt_le_trans with (gauss_integral 1);
    [|apply gauss_integral_le_total].
  assert (H1 : 0 <= Rabs 1) by apply Rabs_pos.
  unfold gauss_integral.
  apply Rlt_le_trans
    with (RiemannInt (RiemannInt_P14 0 (Rabs 1) (exp (- 1)))).
  - rewrite RiemannInt_P15, Rabs_R1.
    pose proof (exp_pos (- 1)). lra.
  - apply RiemannInt_P19; [exact H1|].
    rewrite Rabs_R1. intros t Ht. unfold fct_cte, gauss.
    destruct (Rle_lt_or_eq_dec (- 1) (- (t * t))) as [Hlt|Heq]; [nra| |].
    + apply Rlt_le, exp_increasing, Hlt.
    + rewrite Heq. lra.
Qed.

Definition erf_R (x : R) : R :=
  if Rle_dec 0 x then gauss_integral x / gauss_total
  else - (gauss_integral x / gauss_total).

Lemma erf_R_range (x : R) : -1 <= erf_R x <= 1.
Proof.
  pose proof (gauss_integral_bound x) as [H0 _].
  pose proof (gauss_integral_le_total x) as Hle.
  pose proof gauss_total_pos as Hpos.
  assert (Hq : 0 <= gauss_integral x / gauss_total <= 1).
  { split.
    - apply Rmult_le_pos; [exact H0|]. apply Rlt_le, Rinv_0_lt_compat, Hpos.
    - apply (Rmult_le_reg_r gauss_total); [exact Hpos|].
      unfold Rdiv. rewrite Rmult_assoc, Rinv_l by lra. lra. }
  unfold erf_R. destruct (Rle_dec 0 x); lra.
Qed.

Lemma erf_R_0 : erf_R 0 = 0.
Proof.
  unfold erf_R. destruct (Rle_dec 0 0) as [_|H]; [|lra].
  assert (pr : Riemann_integrable gauss 0 (Rabs 0)).
  { rewrite Rabs_R0. apply RiemannInt_P7. }
  rewrite (gauss_integral_eq 0 pr).
  revert pr. rewrite Rabs_R0. intros pr. rewrite RiemannInt_P9. lra.
Qed.

Lemma gauss_integral_nonneg_arg (y : R) (Hy : 0 <= y)
  (pr : Riemann_integrable gauss 0 y) :
  gauss_integral y = RiemannInt pr.
Proof.
  unfold gauss_integral.
  generalize (gauss_integrable 0 (Rabs y) (Rabs_pos y)).
  rewrite (Rabs_pos_eq y Hy). intros pr'. apply RiemannInt_P5.
Qed.

Lemma gauss_integral_abs (x : R) : gauss_integral (Rabs x) = gauss_integral x.
Proof.
  rewrite (gauss_integral_nonneg_arg (Rabs x) (Rabs_pos x)
             (gauss_integrable 0 (Rabs x) (Rabs_pos x))).
  reflexivity.
Qed.

Lemma gauss_integral_lt_total (x : R) : gauss_integral x < gauss_total.
Proof.
  set (a := Rabs x).
  assert (Ha : 0 <= a) by apply Rabs_pos.
  assert (Ha1 : 0 <= a + 1) by lra.
  assert (Hstep : a <= a + 1) by lra.
  apply Rlt_le_trans with (gauss_integral (a + 1));
    [|apply gauss_integral_le_total].
  rewrite <- (gauss_integral_abs x). fold a.
  rewrite (gauss_integral_nonneg_arg a Ha (gauss_integrable 0 a Ha)).
  rewrite (gauss_integral_nonneg_arg (a + 1) Ha1
             (gauss_integrable 0 (a + 1) Ha1)).
  rewrite <- (RiemannInt_P26 (gauss_integrable 0 a Ha)
                (gauss_integrable a (a + 1) Hstep)
                (gauss_integrable 0 (a + 1) Ha1)).
  assert (Hpos : 0 < RiemannInt (gauss_integrable a (a + 1) Hstep)).
  { apply Rlt_le_trans
      with (RiemannInt (RiemannInt_P14 a (a + 1) (gauss (a + 1)))).
    - rewrite RiemannInt_P15. pose proof (gauss_pos (a + 1)). lra.
    - apply RiemannInt_P19; [exact Hstep|].
      intros t Ht. unfold fct_cte, gauss.
      destruct (Rle_lt_or_eq_dec (- ((a + 1) * (a + 1))) (- (t * t)))
        as [Hlt|Heq]; [nra| |].
      + apply Rlt_le, exp_increasing, Hlt.
      + rewrite Heq. lra. }
  lra.
Qed.

Lemma erf_R_strict (x : R) : -1 < erf_R x < 1.
Proof.
  pose proof (gauss_integral_bound x) as [H0 _].
  pose proof (gauss_integral_lt_total x) as Hlt.
  pose proof gauss_total_pos as Hpos.
  assert (Hq : 0 <= gauss_integral x / gauss_total < 1).
  { split.
    - apply Rmult_le_pos; [exact H0|]. apply Rlt_le, Rinv_0_lt_compat, Hpos.
    - apply (Rmult_lt_reg_r gauss_total); [exact Hpos|].
      unfold Rdiv. rewrite Rmult_assoc, Rinv_l by lra. lra. }
  unfold erf_R. destruct (Rle_dec 0 x); lra.
Qed.

Definition real_special_functions : SpecialFunctions := {| erf := erf_R |}.

Lemma real_special_functions_spec :
  SpecialFunctionsSpec real_special_functions.
Proof. split. exact erf_R_range. Qed.

(* ------------------------------------------------------------------ *)
(** ** The linear solver *)

(** The solver of exact arithmetic: the solution of a regular square
    system, [LinAlgError] otherwise.  It shows that
    [LinearAlgebraSpec] can be met. *)
Definition solve_exact (a : list (list R)) (b : list R) : result (list R) :=
  match excluded_middle_informative (square (length b) a) with
  | left _ =>
      match excluded_middle_informative (regular (length b) a) with
      | left Hreg =>
          Ok (proj1_sig
                (constructive_indefinite_description _ (Hreg b eq_refl)))
      | right _ => Raise (LinAlgError msg_singular)
      end
  | right _ =>
      Raise (LinAlgError "Last 2 dimensions of the array must be square")
  end.

Definition exact_linear_algebra : LinearAlgebra :=
  {| linalg_solve := solve_exact |}.

Lemma exact_linear_algebra_spec : LinearAlgebraSpec exact_linear_algebra.
Proof.
  split; intros a b Hsq Hreg; cbn [linalg_solve exact_linear_algebra];
    unfold solve_exact.
  - destruct (excluded_middle_informative (square (length b) a));
      [|contradiction].
    destruct (excluded_middle_informative (regular (length b) a))
      as [Hreg'|]; [|contradiction].
    destruct (constructive_indefinite_description _ (Hreg' b eq_refl))
      as [x Hx].
    cbn [proj1_sig]. destruct Hx as (Hlen & Hsol & _).
    exists x. auto.
  - destruct (excluded_middle_informative (square (length b) a));
      [|contradiction].
    destruct (excluded_middle_informative (regular (length b) a));
      [contradiction | reflexivity].
Qed.

(* ------------------------------------------------------------------ *)
(** ** Splines, defaults and a cosmology *)

(** The piecewise linear function through the points [(xs[i], ys[i])],
    constant outside them. *)
Fixpoint interp_linear (xs ys : list R) (u : R) : R :=
  match xs, ys with
  | x0 :: xs', y0 :: ys' =>
      match xs', ys' with
      | x1 :: _, y1 :: _ =>
          if Rle_dec u x1
          then y0 + (u - x0) * ((y1 - y0) / (x1 - x0))
          else interp_linear xs' ys' u
      | _, _ => y0
      end
  | _, _ => 0
  end.

Definition linear_interpolate : Interpolate :=
  {| spline := fun x y => Ok (interp_linear x y) |}.

(** A small grid: three radii from 1/2 to 1 and two concentrations. *)
Definition small_grid_defaults : Defaults :=
  {| default_quenching_parameters :=
       [("logM_abcissa", [12; 15]);
        ("central_ordinates", [0.25; 0.75]);
        ("satellite_ordinates", [0.5; 0.75])];
     default_Npts_radius_array := 3;
     default_min_rad := 0.5;
     default_Npts_concen_array := 2;
     min_permitted_conc := 1;
     max_permitted_conc := 25 |}.

Definition flat_cosmology : astropy_cosmology :=
  {| H0 := 70; critical_density := fun _ => 1.36e11; Om0 := 0.3 |}.


(* ================================================================== *)
(** * Properties *)

(* ------------------------------------------------------------------ *)
(** ** The error and warning monads *)

Lemma iobind_ret {A B : Type} (a : A) (f : A -> io B) :
  iobind (ret a) f = f a.
Proof. unfold iobind, ret. destruct (f a) as [w r]. reflexivity. Qed.

Lemma iobind_raise {A B : Type} (e : exn) (f : A -> io B) :
  iobind (raise e) f = raise e.
Proof. reflexivity. Qed.

(* ------------------------------------------------------------------ *)
(** ** Threshold resolution of the Zheng07 model *)

Section Thresholds.
Import Zheng07_HOD_Model.

(** The thresholds of Table 1, brightest last. *)
Definition tabulated_thresholds : list R :=
  [-18; -18.5; -19; -19.5; -20; -20.5; -21; -21.5; -22].

(** The number a threshold argument stands for when it passes the
    [isinstance] test of [published_parameters]. *)
Definition threshold_number (v : value) : option R :=
  match v with
  | PyBool b => Some (if b then 1 else 0)
  | PyInt z => Some (IZR z)
  | PyFloat x => Some x
  | _ => None
  end.

(** The threshold arguments that [float] converts: all but the integers
    beyond the range of the doubles. *)
Definition float_convertible (v : value) : Prop :=
  match v with
  | PyInt z => (Z.abs z < float_max_int)%Z
  | _ => True
  end.

(** The row of Table 1 for the threshold -19.5. *)
Definition parameters_19_5 : dict R :=
  [("logMmin_cen", 11.75); ("sigma_logM", 0.28); ("logM0_sat", 11.69);
   ("logM1_sat", 13.01); ("alpha_sat", 1.06); ("fconc", 1.0)].

Lemma ceil_IZR (z : Z) : Np.ceil (IZR z) = z.
Proof.
  unfold Np.ceil, Int_part.
  rewrite <- opp_IZR.
  rewrite <- (tech_up (IZR (- z)) (- z + 1)).
  - lia.
  - rewrite plus_IZR. lra.
  - rewrite plus_IZR. lra.
Qed.

Lemma threshold_array_eq :
  rev (Np.arange (-22) (-17.5) 0.5) = tabulated_thresholds.
Proof.
  unfold Np.arange.
  replace ((-17.5 - -22) / 0.5) with (IZR 9) by lra.
  rewrite ceil_IZR.
  change (Z.to_nat 9) with 9%nat.
  cbn [seq map rev app INR].
  unfold tabulated_thresholds.
  repeat (f_equal; try lra).
Qed.

Lemma where_eq_from_absent (a : list R) (x : R) (i : nat) :
  ~ In x a -> Np.where_eq_from i a x = [].
Proof.
  revert i. induction a as [|y a IH]; intros i Hnin; cbn.
  - reflexivity.
  - destruct (Req_dec_T y x) as [->|_].
    + exfalso. apply Hnin. now left.
    + apply IH. intro Hin. apply Hnin. now right.
Qed.

Ltac decide_Req :=
  repeat match goal with
    | |- context [Req_dec_T ?a ?b] =>
        destruct (Req_dec_T a b); [try (exfalso; lra) | try (exfalso; lra)]
    end.

Lemma where_eq_19_5 : Np.where_eq tabulated_thresholds (-19.5) = [3%nat].
Proof.
  unfold Np.where_eq, tabulated_thresholds. cbn [Np.where_eq_from].
  decide_Req. reflexivity.
Qed.

Lemma float_of_int_small (z : Z) :
  (Z.abs z < float_max_int)%Z -> float_of_int z = Ok (IZR z).
Proof.
  intros Hz. unfold float_of_int.
  apply Z.ltb_lt in Hz. now rewrite Hz.
Qed.

Lemma float_of_int_large (z : Z) :
  (float_max_int <= Z.abs z)%Z ->
  float_of_int z = Raise (OverflowError msg_int_too_large).
Proof.
  intros Hz. unfold float_of_int.
  apply Z.ltb_ge in Hz. now rewrite Hz.
Qed.

Lemma float_max_int_above_table : (22 < float_max_int)%Z.
Proof. vm_compute. reflexivity. Qed.

Lemma tabulated_range (x : R) :
  In x tabulated_thresholds -> -22 <= x <= -18.
Proof.
  unfold tabulated_thresholds. cbn [In]. intros H.
  repeat (destruct H as [H|H]; [lra|]). destruct H.
Qed.

(** A threshold of the table is one that [float] converts. *)
Lemma tabulated_convertible (v : value) (x : R) :
  threshold_number v = Some x ->
  In x tabulated_thresholds ->
  float_convertible v.
Proof.
  intros Hnum Hin. destruct v; cbn in *; try exact I.
  injection Hnum as <-.
  apply tabulated_range in Hin. destruct Hin as [Hlo Hhi].
  apply le_IZR in Hlo. apply le_IZR in Hhi.
  pose proof float_max_int_above_table. lia.
Qed.

(** On a threshold that [float] converts, the method runs as on the
    float itself. *)
Lemma published_parameters_float (self : t) (v : value) (x : R) :
  threshold_number v = Some x ->
  float_convertible v ->
  published_parameters self v = published_parameters self (PyFloat x).
Proof.
  intros Hnum Hconv. destruct v; cbn in Hnum; try discriminate;
    injection Hnum as <-; try reflexivity.
  unfold published_parameters.
  rewrite (float_of_int_small z Hconv). reflexivity.
Qed.

Lemma published_parameters_overflow (self : t) (z : Z) :
  (float_max_int <= Z.abs z)%Z ->
  published_parameters self (PyInt z)
  = ([], Raise (OverflowError msg_int_too_large)).
Proof.
  intros Hz. unfold published_parameters.
  rewrite (float_of_int_large z Hz). reflexivity.
Qed.

Lemma published_parameters_no_match (self : t) (v : value) (x : R) :
  threshold_number v = Some x ->
  float_convertible v ->
  ~ In x tabulated_thresholds ->
  published_parameters self v = ([], Raise (TypeError msg_threshold_no_match)).
Proof.
  intros Hnum Hconv Hnin.
  assert (Hidx : Np.where_eq (rev (Np.arange (-22) (-17.5) 0.5)) x = []).
  { rewrite threshold_array_eq. now apply where_eq_from_absent. }
  rewrite (published_parameters_float self v x Hnum Hconv).
  unfold published_parameters.
  rewrite iobind_ret; cbn [Zheng07_HOD_Model.threshold set_threshold].
  rewrite Hidx. reflexivity.
Qed.

Lemma published_parameters_not_scalar (self : t) (v : value) :
  v <> PyNone ->
  threshold_number v = None ->
  published_parameters self v
  = ([], Raise (TypeError msg_threshold_not_scalar)).
Proof.
  intros Hv Hnum. destruct v; cbn in Hnum; try discriminate;
    try reflexivity. now elim Hv.
Qed.

Lemma published_parameters_default (self : t) :
  published_parameters self PyNone
  = ([msg_threshold_unspecified],
     Ok (set_threshold self (-19.5), parameters_19_5)).
Proof.
  unfold published_parameters.
  cbn [iobind warn ret app Zheng07_HOD_Model.threshold set_threshold].
  rewrite threshold_array_eq, where_eq_19_5.
  reflexivity.
Qed.

Lemma thirty_not_tabulated : ~ In (IZR (-30)) tabulated_thresholds.
Proof.
  unfold tabulated_thresholds. cbn [In].
  intros H. repeat (destruct H as [H|H]; [lra|]). exact H.
Qed.

Lemma thirty_convertible : float_convertible (PyInt (-30)).
Proof. vm_compute. reflexivity. Qed.

Lemma huge_int_overflows : (float_max_int <= Z.abs (10 ^ 400))%Z.
Proof. vm_compute. discriminate. Qed.

Lemma huge_int_not_tabulated : ~ In (IZR (10 ^ 400)) tabulated_thresholds.
Proof.
  intros Hin. apply tabulated_range in Hin. destruct Hin as [_ Hhi].
  apply le_IZR in Hhi. revert Hhi. vm_compute. intros H. now apply H.
Qed.

(** C6, as the code has it. Construction with [parameter_dict=None]: an
    omitted threshold resolves the parameters of -19.5 and issues one
    warning; an [int], [bool] or [float] threshold that [float] converts
    and that is outside the table of Zheng et al. fails with the error
    whose message reports the missing table entry, and so does -30; an
    [int] beyond the range of the doubles fails before the lookup, with
    the [OverflowError] of [float]; a threshold that is neither [None]
    nor an [int] or a [float] fails with the error whose message asks
    for a scalar. *)
Theorem C6_threshold_resolution :
  (__init__ None PyNone
   = ([msg_threshold_unspecified],
      Ok (mk "Zheng07" "arXiv:0703457" parameters_19_5 (Some (-19.5)))))
  /\ (forall (v : value) (x : R),
        threshold_number v = Some x ->
        float_convertible v ->
        ~ In x tabulated_thresholds ->
        __init__ None v = ([], Raise (TypeError msg_threshold_no_match)))
  /\ __init__ None (PyInt (-30))
     = ([], Raise (TypeError msg_threshold_no_match))
  /\ (forall z : Z,
        (float_max_int <= Z.abs z)%Z ->
        __init__ None (PyInt z)
        = ([], Raise (OverflowError msg_int_too_large)))
  /\ (forall v : value,
        v <> PyNone ->
        threshold_number v = None ->
        __init__ None v = ([], Raise (TypeError msg_threshold_not_scalar))).
Proof.
  split; [|split; [|split; [|split]]].
  - unfold __init__. rewrite published_parameters_default. reflexivity.
  - intros v x Hnum Hconv Hnin. unfold __init__.
    rewrite (published_parameters_no_match _ v x Hnum Hconv Hnin).
    reflexivity.
  - unfold __init__.
    rewrite (published_parameters_no_match _ (PyInt (-30)) (IZR (-30))
               eq_refl thirty_convertible thirty_not_tabulated).
    reflexivity.
  - intros z Hz. unfold __init__.
    rewrite (published_parameters_overflow _ z Hz). reflexivity.
  - intros v Hv Hnum. unfold __init__.
    rewrite (published_parameters_not_scalar _ v Hv Hnum). reflexivity.
Qed.

(** The threshold 0.25, the integer [10**400] and the string ["faint"]
    at C6. *)
Lemma C6_threshold_resolution_witness :
  __init__ None (PyFloat 0.25)
  = ([], Raise (TypeError msg_threshold_no_match))
  /\ __init__ None (PyInt (10 ^ 400))
     = ([], Raise (OverflowError msg_int_too_large))
  /\ __init__ None (PyStr "faint")
     = ([], Raise (TypeError msg_threshold_not_scalar)).
Proof.
  destruct C6_threshold_resolution as (_ & Hnum & _ & Hbig & Hstr).
  split; [|split].
  - apply (Hnum (PyFloat 0.25) 0.25 eq_refl I).
    unfold tabulated_thresholds. cbn [In].
    intros H. repeat (destruct H as [H|H]; [lra|]). exact H.
  - apply (Hbig (10 ^ 400)%Z huge_int_overflows).
  - apply (Hstr (PyStr "faint")); [discriminate | reflexivity].
Defined.

(** The integer [10**400] is a number outside the table, and the
    constructor does not fail on it with the error of the lookup: the
    conversion to a float raises first. *)
Lemma C6_threshold_resolution_counterexample :
  threshold_number (PyInt (10 ^ 400)) = Some (IZR (10 ^ 400))
  /\ ~ In (IZR (10 ^ 400)) tabulated_thresholds
  /\ __init__ None (PyInt (10 ^ 400))
     = ([], Raise (OverflowError msg_int_too_large))
  /\ __init__ None (PyInt (10 ^ 400))
     <> ([], Raise (TypeError msg_threshold_no_match)).
Proof.
  assert (Hraise : __init__ None (PyInt (10 ^ 400))
                   = ([], Raise (OverflowError msg_int_too_large))).
  { unfold __init__.
    rewrite (published_parameters_overflow _ _ huge_int_overflows).
    reflexivity. }
  split; [reflexivity|]. split; [exact huge_int_not_tabulated|].
  split; [exact Hraise|].
  rewrite Hraise. intros H. discriminate H.
Qed.

End Thresholds.

(* ------------------------------------------------------------------ *)
(** ** Boolean masks *)

Section Masks.

Lemma mask_select_map {A B : Type} (f : A -> B) (a : list A) (m : list bool) :
  Np.mask_select (map f a) m = map f (Np.mask_select a m).
Proof.
  revert m. induction a as [|x a IH]; intros [|b m]; cbn; try reflexivity.
  destruct b; cbn; now rewrite IH.
Qed.

Lemma mask_select_length {A : Type} (p : A -> bool) (a : list A) :
  length (Np.mask_select a (map p a)) = Np.count_true (map p a).
Proof.
  unfold Np.count_true. induction a as [|x a IH]; cbn.
  - reflexivity.
  - destruct (p x); cbn; now rewrite IH.
Qed.

Lemma mul_map (f g : R -> R) (a : list R) :
  Np.mul (map f a) (map g a) = map (fun x => f x * g x) a.
Proof. induction a as [|x a IH]; cbn; [reflexivity | now rewrite IH]. Qed.

(** Assigning [f] of the selected elements to a zero array leaves 0
    where the mask is false and [f x] where it is true. *)
Lemma scatter_zeros_select (p : R -> bool) (f : R -> R) (a : list R) :
  Np.scatter (Np.zeros (length a)) (map p a)
    (map f (Np.mask_select a (map p a)))
  = map (fun x => if p x then f x else 0) a.
Proof.
  unfold Np.zeros. induction a as [|x a IH]; cbn.
  - reflexivity.
  - destruct (p x); cbn; now rewrite IH.
Qed.

Lemma mask_assign_zeros_select (p : R -> bool) (f : R -> R) (a : list R) :
  Np.mask_assign (Np.zeros (length a)) (map p a)
    (map f (Np.mask_select a (map p a)))
  = Ok (map (fun x => if p x then f x else 0) a).
Proof.
  unfold Np.mask_assign.
  rewrite length_map, mask_select_length, Nat.eqb_refl.
  now rewrite scatter_zeros_select.
Qed.

End Masks.

(* ------------------------------------------------------------------ *)
(** ** Mean occupations of the Zheng07 model *)

Section Zheng07.
Import Zheng07_HOD_Model.
Context {SF : SpecialFunctions}.

(** The central occupation at one mass. *)
Definition ncen_at (logMmin_cen sigma_logM x : R) : R :=
  0.5 * (1.0 + erf ((x - logMmin_cen) / sigma_logM)).

Lemma mean_ncen_ok (self : t) (logM : list R) (lmin sig : R) :
  getitem (parameter_dict self) "logMmin_cen" = Ok lmin ->
  getitem (parameter_dict self) "sigma_logM" = Ok sig ->
  mean_ncen self (NdArray logM) = Ok (map (ncen_at lmin sig) logM).
Proof. intros H1 H2. unfold mean_ncen. rewrite H1, H2. reflexivity. Qed.

Lemma mean_nsat_ok (self : t) (logM : list R) (lmin sig l0 l1 alpha : R) :
  getitem (parameter_dict self) "logMmin_cen" = Ok lmin ->
  getitem (parameter_dict self) "sigma_logM" = Ok sig ->
  getitem (parameter_dict self) "logM0_sat" = Ok l0 ->
  getitem (parameter_dict self) "logM1_sat" = Ok l1 ->
  getitem (parameter_dict self) "alpha_sat" = Ok alpha ->
  mean_nsat self (NdArray logM)
  = Ok (map (fun x =>
               if Np.Rgtb (Np.pow10 x - Np.pow10 l0) 0
               then ncen_at lmin sig x
                    * Rpower ((Np.pow10 x - Np.pow10 l0) / Np.pow10 l1) alpha
               else 0) logM).
Proof.
  intros Hmin Hsig H0 H1 Ha. unfold mean_nsat.
  rewrite H0, H1. cbn [bind].
  set (mask := map (fun h : R => Np.Rgtb (h - Np.pow10 l0) 0)
                  (map Np.pow10 logM)).
  rewrite (mean_ncen_ok self _ lmin sig Hmin Hsig). cbn [bind].
  rewrite Ha. cbn [bind].
  rewrite mask_select_map, List.map_map, mul_map.
  unfold mask. rewrite List.map_map.
  apply (mask_assign_zeros_select
           (fun x => Np.Rgtb (Np.pow10 x - Np.pow10 l0) 0)).
Qed.

(** C1. Element [i] of [mean_nsat(logM)] is 0 where
    [10**logM[i] - M0 <= 0]; elsewhere it is element [i] of
    [mean_ncen(logM)] times [((10**logM[i] - M0)/M1)**alpha_sat], with
    [M0] and [M1] the powers of ten of the dictionary entries.  When
    [erf] stays above -1, as the error function of the reals does, the
    element is 0 nowhere else. *)
Theorem C1_mean_nsat_elementwise
  (self : t) (logM : list R) (lmin sig l0 l1 alpha : R) :
  getitem (parameter_dict self) "logMmin_cen" = Ok lmin ->
  getitem (parameter_dict self) "sigma_logM" = Ok sig ->
  getitem (parameter_dict self) "logM0_sat" = Ok l0 ->
  getitem (parameter_dict self) "logM1_sat" = Ok l1 ->
  getitem (parameter_dict self) "alpha_sat" = Ok alpha ->
  exists nsat ncen : list R,
    mean_nsat self (NdArray logM) = Ok nsat
    /\ mean_ncen self (NdArray logM) = Ok ncen
    /\ length nsat = length logM
    /\ length ncen = length logM
    /\ forall i : nat, (i < length logM)%nat ->
         let M0 := Rpower 10 l0 in
         let M1 := Rpower 10 l1 in
         let halo_mass := Rpower 10 (nth i logM 0) in
         (halo_mass - M0 <= 0 -> nth i nsat 0 = 0)
         /\ (~ halo_mass - M0 <= 0 ->
             nth i nsat 0
             = nth i ncen 0 * Rpower ((halo_mass - M0) / M1) alpha)
         /\ ((forall x : R, -1 < erf x) ->
             (nth i nsat 0 = 0 <-> halo_mass - M0 <= 0)).
Proof.
  intros Hmin Hsig H0 H1 Ha.
  eexists. eexists.
  split; [exact (mean_nsat_ok self logM lmin sig l0 l1 alpha
                   Hmin Hsig H0 H1 Ha)|].
  split; [exact (mean_ncen_ok self logM lmin sig Hmin Hsig)|].
  split; [apply length_map|].
  split; [apply length_map|].
  intros i Hi M0 M1 halo_mass.
  set (F := fun x : R =>
              if Np.Rgtb (Np.pow10 x - Np.pow10 l0) 0
              then ncen_at lmin sig x
                   * Rpower ((Np.pow10 x - Np.pow10 l0) / Np.pow10 l1) alpha
              else 0).
  assert (HF : nth i (map F logM) 0 = F (nth i logM 0)).
  { rewrite (nth_indep _ 0 (F 0)) by (rewrite length_map; exact Hi).
    apply map_nth. }
  assert (HC : nth i (map (ncen_at lmin sig) logM) 0
               = ncen_at lmin sig (nth i logM 0)).
  { rewrite (nth_indep _ 0 (ncen_at lmin sig 0))
      by (rewrite length_map; exact Hi).
    apply map_nth. }
  rewrite HF, HC. unfold F, Np.Rgtb, Np.pow10.
  fold M0 M1 halo_mass.
  destruct (Rlt_dec 0 (halo_mass - M0)) as [Hpos|Hneg];
    (split; [|split]); intros H.
  - lra.
  - reflexivity.
  - assert (Hcen : 0 < ncen_at lmin sig (nth i logM 0)).
    { unfold ncen_at.
      pose proof (H ((nth i logM 0 - lmin) / sig)). lra. }
    assert (Hpow : 0 < Rpower ((halo_mass - M0) / M1) alpha)
      by apply exp_pos.
    pose proof (Rmult_lt_0_compat _ _ Hcen Hpow).
    split; intros; lra.
  - reflexivity.
  - lra.
  - split; intros; [lra | reflexivity].
Qed.

(** C8. With a positive [sigma_logM], [mean_ncen] returns an array of
    the length of [logM] whose element [i] is
    [0.5*(1 + erf((logM[i] - logMmin_cen)/sigma_logM))] and lies in
    [0,1]. *)
Theorem C8_mean_ncen_in_unit_interval
  {SFS : SpecialFunctionsSpec SF}
  (self : t) (logM : list R) (lmin sig : R) :
  getitem (parameter_dict self) "logMmin_cen" = Ok lmin ->
  getitem (parameter_dict self) "sigma_logM" = Ok sig ->
  0 < sig ->
  exists ncen : list R,
    mean_ncen self (NdArray logM) = Ok ncen
    /\ length ncen = length logM
    /\ forall i : nat, (i < length logM)%nat ->
         nth i ncen 0 = 0.5 * (1 + erf ((nth i logM 0 - lmin) / sig))
         /\ 0 <= nth i ncen 0 <= 1.
Proof.
  intros Hmin Hsig Hpos.
  exists (map (ncen_at lmin sig) logM).
  split; [exact (mean_ncen_ok self logM lmin sig Hmin Hsig)|].
  split; [apply length_map|].
  intros i Hi.
  rewrite (nth_indep _ 0 (ncen_at lmin sig 0))
    by (rewrite length_map; exact Hi).
  rewrite (map_nth (ncen_at lmin sig)). unfold ncen_at.
  pose proof (erf_range ((nth i logM 0 - lmin) / sig)) as Herf.
  split; lra.
Qed.

End Zheng07.

(** The published model of threshold -19.5 and the masses
    [logM = [11; 12; 13]] at C1: the first mass is below [M0]. *)
Lemma C1_mean_nsat_elementwise_witness :
  exists nsat : list R,
    @Zheng07_HOD_Model.mean_nsat real_special_functions
      (Zheng07_HOD_Model.mk "Zheng07" "arXiv:0703457" parameters_19_5
         (Some (-19.5)))
      (NdArray [11; 12; 13]) = Ok nsat
    /\ nth 0 nsat 0 = 0.
Proof.
  destruct (@C1_mean_nsat_elementwise real_special_functions
              (Zheng07_HOD_Model.mk "Zheng07" "arXiv:0703457"
                 parameters_19_5 (Some (-19.5)))
              [11; 12; 13] 11.75 0.28 11.69 13.01 1.06
              eq_refl eq_refl eq_refl eq_refl eq_refl)
    as (nsat & ncen & Hnsat & _ & _ & _ & Hnth).
  exists nsat. split; [exact Hnsat|].
  destruct (Hnth 0%nat ltac:(cbn; lia)) as (Hzero & _ & _).
  apply Hzero. cbn [nth].
  assert (Hlt : Rpower 10 11 < Rpower 10 11.69)
    by (apply Rpower_lt; lra).
  lra.
Defined.

(** The same model and masses at C8. *)
Lemma C8_mean_ncen_in_unit_interval_witness :
  exists ncen : list R,
    @Zheng07_HOD_Model.mean_ncen real_special_functions
      (Zheng07_HOD_Model.mk "Zheng07" "arXiv:0703457" parameters_19_5
         (Some (-19.5)))
      (NdArray [11; 12; 13]) = Ok ncen
    /\ 0 <= nth 1 ncen 0 <= 1.
Proof.
  destruct (@C8_mean_ncen_in_unit_interval real_special_functions
              real_special_functions_spec
              (Zheng07_HOD_Model.mk "Zheng07" "arXiv:0703457"
                 parameters_19_5 (Some (-19.5)))
              [11; 12; 13] 11.75 0.28 eq_refl eq_refl ltac:(lra))
    as (ncen & Hncen & _ & Hnth).
  exists ncen. split; [exact Hncen|].
  apply (Hnth 1%nat). cbn. lia.
Defined.

(* ------------------------------------------------------------------ *)
(** ** The NFW cumulative mass profile *)

Section NFW.
Import NFWProfile.

(** The mass enclosed within [x] scale radii, up to a constant factor:
    the denominator of [g]. *)
Definition enclosed (x : R) : R := ln (1 + x) - x / (1 + x).

Lemma ln_lt_pred (t : R) : 0 < t -> t <> 1 -> ln t < t - 1.
Proof.
  intros Ht Hne.
  assert (Hexp : t < exp (t - 1)).
  { pose proof (exp_ineq1 (t - 1)) as H.
    assert (Hnz : t - 1 <> 0) by lra.
    specialize (H Hnz). lra. }
  rewrite <- (ln_exp (t - 1)).
  now apply ln_increasing.
Qed.

Lemma enclosed_increasing (x y : R) :
  0 <= x -> x < y -> enclosed x < enclosed y.
Proof.
  intros Hx Hxy. unfold enclosed.
  set (t := (1 + x) / (1 + y)).
  assert (Hy : 0 < 1 + y) by lra.
  assert (Hx1 : 0 < 1 + x) by lra.
  assert (Ht : 0 < t) by (unfold t; apply Rdiv_lt_0_compat; lra).
  assert (Hlt : t < 1).
  { unfold t. apply (Rmult_lt_reg_r (1 + y)); [exact Hy|].
    unfold Rdiv. rewrite Rmult_assoc, Rinv_l by lra. lra. }
  pose proof (ln_lt_pred t Ht ltac:(lra)) as Hln.
  assert (Hlnt : ln t = ln (1 + x) - ln (1 + y)).
  { unfold t, Rdiv. rewrite ln_mult, ln_Rinv; try lra.
    apply Rinv_0_lt_compat; lra. }
  assert (Hfrac : y / (1 + y) - x / (1 + x) <= 1 - t).
  { unfold t.
    replace (1 - (1 + x) / (1 + y)) with ((y - x) / (1 + y))
      by (field; lra).
    replace (y / (1 + y) - x / (1 + x))
      with ((y - x) / (1 + y) * / (1 + x)) by (field; lra).
    assert (Hq : 0 < (y - x) / (1 + y)) by (apply Rdiv_lt_0_compat; lra).
    assert (Hinv : / (1 + x) <= 1).
    { rewrite <- Rinv_1. apply Rinv_le_contravar; lra. }
    nra. }
  lra.
Qed.

Lemma enclosed_0 : enclosed 0 = 0.
Proof. unfold enclosed. rewrite Rplus_0_r, ln_1. lra. Qed.

Lemma enclosed_pos (x : R) : 0 < x -> 0 < enclosed x.
Proof.
  intros Hx. rewrite <- enclosed_0.
  apply enclosed_increasing; lra.
Qed.

Lemma g_enclosed (x : R) : g x = / enclosed x.
Proof.
  unfold g, enclosed.
  replace (1.0 + x) with (1 + x) by lra. lra.
Qed.

Lemma g_pos (x : R) : 0 < x -> 0 < g x.
Proof.
  intros Hx. rewrite g_enclosed.
  apply Rinv_0_lt_compat, enclosed_pos, Hx.
Qed.

(** The cumulative profile is the ratio of the enclosed masses. *)
Lemma cumulative_mass_PDF_enclosed (r c : R) :
  cumulative_mass_PDF r c = enclosed (r * c) / enclosed c.
Proof.
  unfold cumulative_mass_PDF. rewrite !g_enclosed.
  unfold Rdiv. rewrite Rinv_inv. apply Rmult_comm.
Qed.

(** C2. For a concentration [c > 0]: at every [r] of (0,1] the result of
    [cumulative_mass_PDF] is the quotient [g(c)/g(r*c)] of two positive
    numbers; it increases strictly with [r] on (0,1]; and it is 1 at
    [r = 1]. *)
Theorem C2_cumulative_mass_PDF (c : R) :
  0 < c ->
  (forall r : R, 0 < r <= 1 ->
     cumulative_mass_PDF r c = g c / g (r * c)
     /\ 0 < g c /\ 0 < g (r * c))
  /\ (forall r1 r2 : R, 0 < r1 -> r1 < r2 -> r2 <= 1 ->
        cumulative_mass_PDF r1 c < cumulative_mass_PDF r2 c)
  /\ cumulative_mass_PDF 1 c = 1.
Proof.
  intros Hc. repeat split.
  - apply g_pos, Hc.
  - apply g_pos. apply Rmult_lt_0_compat; lra.
  - intros r1 r2 H1 H12 H2.
    rewrite !cumulative_mass_PDF_enclosed.
    apply Rmult_lt_compat_r.
    + apply Rinv_0_lt_compat, enclosed_pos, Hc.
    + apply enclosed_increasing.
      * apply Rlt_le, Rmult_lt_0_compat; lra.
      * apply Rmult_lt_compat_r; lra.
  - unfold cumulative_mass_PDF. rewrite Rmult_1_l.
    apply Rdiv_diag. apply Rgt_not_eq, g_pos, Hc.
Qed.

(** The concentration 5 and the radii 1/4 and 1/2 at C2. *)
Lemma C2_cumulative_mass_PDF_witness :
  cumulative_mass_PDF (1/4) 5 < cumulative_mass_PDF (1/2) 5
  /\ cumulative_mass_PDF 1 5 = 1.
Proof.
  destruct (C2_cumulative_mass_PDF 5 ltac:(lra)) as (_ & Hmono & Hone).
  split; [apply Hmono; lra | exact Hone].
Defined.

(** C9. On [0 < x < 1] and [c > 0] the function [cumulative_NFW_PDF] of
    the occupation module and the method [cumulative_mass_PDF] of the
    NFW profile have the same value, and every division of either
    computation is by a positive number: the normalisation of the first,
    the denominators [1 + c] and [1 + x*c], and [g(x*c)] and the
    denominators inside [g] of the second. *)
Theorem C9_cumulative_NFW_PDF_agrees (x c : R) :
  0 < x < 1 -> 0 < c ->
  cumulative_NFW_PDF x c = cumulative_mass_PDF x c
  /\ 0 < ln (1 + c) - c / (1 + c)
  /\ 0 < ln (1 + x * c) - x * c / (1 + x * c)
  /\ 0 < 1 + c /\ 0 < 1 + x * c
  /\ 0 < g (x * c).
Proof.
  intros Hx Hc.
  assert (Hxc : 0 < x * c) by (apply Rmult_lt_0_compat; lra).
  repeat split.
  - rewrite cumulative_mass_PDF_enclosed.
    unfold cumulative_NFW_PDF, enclosed. reflexivity.
  - apply (enclosed_pos c Hc).
  - apply (enclosed_pos (x * c) Hxc).
  - lra.
  - lra.
  - apply g_pos, Hxc.
Qed.

(** The radius 1/2 and the concentration 5 at C9. *)
Lemma C9_cumulative_NFW_PDF_agrees_witness :
  cumulative_NFW_PDF (1/2) 5 = cumulative_mass_PDF (1/2) 5.
Proof. apply C9_cumulative_NFW_PDF_agrees; lra. Defined.

Section Constructor.
Context {D : Defaults} {I : Interpolate}.

Lemma build_inv_cumu_lookup_table_base (self self' : t) :
  build_inv_cumu_lookup_table self = Ok self' -> base self' = base self.
Proof.
  unfold build_inv_cumu_lookup_table.
  destruct (fit_splines _ _) as [fs|e]; cbn [bind]; intros H.
  - injection H as <-. reflexivity.
  - discriminate.
Qed.

Lemma NFWProfile_init_base
  (dv z flag : value) (cosmo : astropy_cosmology) (self : t) :
  __init__ dv cosmo z flag = Ok self ->
  base self = HaloProfileModel.__init__ dv cosmo z.
Proof.
  unfold __init__.
  destruct flag as [| [|] | | | |]; intros H;
    try (injection H as <-; reflexivity).
  apply build_inv_cumu_lookup_table_base in H. exact H.
Qed.

Lemma fit_splines_spec (radius_array : list R) :
  forall (conc_array : list R) (fs : list (R -> R)),
    fit_splines conc_array radius_array = Ok fs ->
    Forall2 (fun c f =>
               spline (map (fun r => cumulative_mass_PDF r c) radius_array)
                 radius_array = Ok f)
            conc_array fs.
Proof.
  induction conc_array as [|c cs IH]; intros fs H; cbn in H.
  - injection H as <-. constructor.
  - destruct (spline _ radius_array) as [f|e] eqn:Hf; cbn [bind] in H;
      [|discriminate].
    destruct (fit_splines cs radius_array) as [fs'|e]; cbn [bind] in H;
      [|discriminate].
    injection H as <-. constructor; [exact Hf | now apply IH].
Qed.

(** The table after [build_inv_cumu_lookup_table]: the concentration
    grid, and for each of its concentrations the function fitted with
    the cumulative profile over the radius grid as abscissas and the
    radius grid as ordinates. *)
Lemma build_inv_cumu_lookup_table_spec (self self' : t) :
  build_inv_cumu_lookup_table self = Ok self' ->
  let radius_array :=
    Np.linspace default_min_rad 1 default_Npts_radius_array in
  let conc_array :=
    Np.linspace min_permitted_conc max_permitted_conc
      default_Npts_concen_array in
  cumu_inv_conc_table self' = Some conc_array
  /\ exists fs : list (R -> R),
       cumu_inv_func_table self' = Some fs
       /\ Forall2 (fun c f =>
                     spline (map (fun r => cumulative_mass_PDF r c)
                                 radius_array) radius_array = Ok f)
                  conc_array fs.
Proof.
  intros H. cbv zeta. unfold build_inv_cumu_lookup_table in H.
  cbv zeta in H.
  destruct (fit_splines _ _) as [fs|e] eqn:Hfs;
    cbn [bind] in H; [|discriminate].
  injection H as <-. cbn. split; [reflexivity|].
  exists fs. split; [reflexivity | now apply fit_splines_spec].
Qed.

(** C10. Whatever is passed for [delta_vir] and [redshift], the base
    constructor stores 360 and 0; the NFW constructor run on other values
    of the two arguments has the same outcome; and an instance it returns
    has [delta_vir] 360, [redshift] 0 and a normalisation [rho_s] that is
    computed from 360 and the cosmology alone.  Without a request for the
    lookup table the constructor returns an instance. *)
Theorem C10_constructor_ignores_arguments
  (dv z flag : value) (cosmo : astropy_cosmology) :
  HaloProfileModel.delta_vir (HaloProfileModel.__init__ dv cosmo z) = 360
  /\ HaloProfileModel.redshift (HaloProfileModel.__init__ dv cosmo z) = 0
  /\ (forall dv' z' : value,
        HaloProfileModel.__init__ dv' cosmo z'
        = HaloProfileModel.__init__ dv cosmo z
        /\ __init__ dv' cosmo z' flag = __init__ dv cosmo z flag)
  /\ (forall self : t,
        __init__ dv cosmo z flag = Ok self ->
        delta_vir self = 360
        /\ redshift self = 0
        /\ forall c : R,
             rho_s self c
             = (360 / 3) * c * c * c * g c
               * (critical_density cosmo 0 / (H0 cosmo / 100) ^ 2
                  * Om0 cosmo))
  /\ (flag <> PyBool true ->
      exists self : t, __init__ dv cosmo z flag = Ok self).
Proof.
  repeat split.
  - cbn. lra.
  - cbn. lra.
  - apply NFWProfile_init_base in H.
    unfold delta_vir. rewrite H. cbn. lra.
  - apply NFWProfile_init_base in H.
    unfold redshift. rewrite H. cbn. lra.
  - intros c. apply NFWProfile_init_base in H.
    unfold rho_s, delta_vir, cosmic_matter_density. rewrite H. cbn.
    replace 360.0 with 360 by lra. replace 100.0 with 100 by lra.
    reflexivity.
  - intros Hflag. unfold __init__.
    destruct flag as [| [|] | | | |]; try (eexists; reflexivity).
    now elim Hflag.
Qed.

End Constructor.

(** A request for an overdensity of 200 at redshift 1.5, without the
    lookup table, at C10. *)
Lemma C10_constructor_ignores_arguments_witness :
  exists self : t,
    @__init__ small_grid_defaults linear_interpolate
      (PyInt 200) flat_cosmology (PyFloat 1.5) (PyBool false) = Ok self
    /\ delta_vir self = 360 /\ redshift self = 0.
Proof.
  destruct (@C10_constructor_ignores_arguments
              small_grid_defaults linear_interpolate
              (PyInt 200) (PyFloat 1.5) (PyBool false) flat_cosmology)
    as (_ & _ & _ & Hinst & Hret).
  destruct (Hret ltac:(discriminate)) as [self Hself].
  exists self. split; [exact Hself|].
  destruct (Hinst self Hself) as (Hdv & Hz & _). now split.
Defined.

End NFW.

(* ------------------------------------------------------------------ *)
(** ** The quenching polynomial *)

Section QuenchingPolynomial.
Import vdB03_Quenching_Model.

(** The polynomial with the given coefficients for the powers [n],
    [n+1], ... of [x]. *)
Fixpoint power_sum (n : nat) (coefficients : list R) (x : R) : R :=
  match coefficients with
  | [] => 0
  | coeff :: rest => coeff * x ^ n + power_sum (S n) rest x
  end.

(** The two masked assignments at one element. *)
Definition clamp (v : R) : R :=
  let v := if Np.Rltb v 0 then 0 else v in
  if Np.Rgtb v 1 then 1 else v.

Lemma add_map (f g : R -> R) (a : list R) :
  Np.add (map f a) (map g a) = map (fun x => f x + g x) a.
Proof. induction a as [|x a IH]; cbn; [reflexivity | now rewrite IH]. Qed.

Lemma accumulate_terms_map (cs : list R) :
  forall (n : nat) (f : R -> R) (logM : list R),
    accumulate_terms n cs logM (map f logM)
    = map (fun x => f x + power_sum n cs x) logM.
Proof.
  induction cs as [|c cs IH]; intros n f logM; cbn.
  - apply map_ext. intros x. lra.
  - rewrite add_map, IH. apply map_ext. intros x. lra.
Qed.

Lemma zeros_map (a : list R) : Np.zeros (length a) = map (fun _ => 0) a.
Proof.
  unfold Np.zeros. induction a as [|x a IH]; cbn;
    [reflexivity | now rewrite IH].
Qed.

Lemma mask_fill_map (p : R -> bool) (f : R -> R) (y : R) (a : list R) :
  Np.mask_fill (map f a) (map p (map f a)) y
  = map (fun x => if p (f x) then y else f x) a.
Proof. induction a as [|x a IH]; cbn; [reflexivity | now rewrite IH]. Qed.

Lemma quenching_polynomial_ok
  (self : t) (logM coefficients abcissa : list R) :
  getitem (parameter_dict self) "logM_abcissa" = Ok abcissa ->
  quenching_polynomial self logM coefficients
  = Ok (map (fun x => clamp (power_sum 0 coefficients x)) logM).
Proof.
  intros Hkey. unfold quenching_polynomial. rewrite Hkey. cbn [bind].
  rewrite zeros_map, accumulate_terms_map.
  rewrite mask_fill_map.
  rewrite (mask_fill_map (fun v => Np.Rgtb v 1)).
  f_equal. apply map_ext. intros x. unfold clamp.
  now rewrite Rplus_0_l.
Qed.

Lemma clamp_spec (v : R) :
  0 <= clamp v <= 1
  /\ (v < 0 -> clamp v = 0)
  /\ (1 < v -> clamp v = 1)
  /\ (0 <= v <= 1 -> clamp v = v).
Proof.
  unfold clamp, Np.Rltb, Np.Rgtb.
  destruct (Rlt_dec v 0) as [Hneg|Hneg].
  - destruct (Rlt_dec 1 0) as [H10|H10]; [lra|].
    repeat split; intros; lra.
  - destruct (Rlt_dec 1 v) as [Hbig|Hbig]; repeat split; intros; lra.
Qed.

(** An instance that the constructor returns has the abscissas in its
    dictionary. *)
Lemma init_has_abcissa {LA : LinearAlgebra} {D : Defaults}
  (parameter_dict0 : option (dict (list R))) (self : t) :
  __init__ parameter_dict0 = Ok self ->
  exists abcissa : list R,
    getitem (parameter_dict self) "logM_abcissa" = Ok abcissa.
Proof.
  unfold __init__.
  generalize (match parameter_dict0 with
              | Some d => d
              | None => default_quenching_parameters
              end).
  intros d.
  destruct (getitem d "logM_abcissa") as [abcissa|e] eqn:Habc;
    cbn [bind]; [|discriminate].
  destruct (getitem d "central_ordinates") as [co|e]; cbn [bind];
    [|discriminate].
  destruct (solve_for_quenching_polynomial_coefficients abcissa co)
    as [central|e]; cbn [bind]; [|discriminate].
  destruct (getitem d "satellite_ordinates") as [so|e]; cbn [bind];
    [|discriminate].
  destruct (solve_for_quenching_polynomial_coefficients abcissa so)
    as [satellite|e]; cbn [bind]; [|discriminate].
  intros H. injection H as <-. cbn. now exists abcissa.
Qed.

(** C4. On an instance whose dictionary has the abscissas, and for every
    array [logM] and every sequence of coefficients,
    [quenching_polynomial] returns an array of the length of [logM];
    element [i] lies in [0,1]; it is 0 where the polynomial
    [sum_n coefficients[n] * logM[i]**n] is negative, 1 where it exceeds
    1, and the value of the polynomial otherwise.  The results of
    [mean_quenched_fraction_centrals] and
    [mean_quenched_fraction_satellites] are those of
    [quenching_polynomial] on the stored coefficients, so they lie in
    [0,1] too. *)
Theorem C4_quenching_polynomial_clamped
  (self : t) (abcissa logM coefficients : list R) :
  getitem (parameter_dict self) "logM_abcissa" = Ok abcissa ->
  (exists out : list R,
     quenching_polynomial self logM coefficients = Ok out
     /\ length out = length logM
     /\ forall i : nat, (i < length logM)%nat ->
          let raw := power_sum 0 coefficients (nth i logM 0) in
          0 <= nth i out 0 <= 1
          /\ (raw < 0 -> nth i out 0 = 0)
          /\ (1 < raw -> nth i out 0 = 1)
          /\ (0 <= raw <= 1 -> nth i out 0 = raw))
  /\ (exists out : list R,
        mean_quenched_fraction_centrals self logM = Ok out
        /\ length out = length logM
        /\ Forall (fun v => 0 <= v <= 1) out)
  /\ (exists out : list R,
        mean_quenched_fraction_satellites self logM = Ok out
        /\ length out = length logM
        /\ Forall (fun v => 0 <= v <= 1) out).
Proof.
  intros Hkey.
  assert (Hall : forall cs,
             Forall (fun v => 0 <= v <= 1)
               (map (fun x => clamp (power_sum 0 cs x)) logM)).
  { intros cs. apply Forall_forall. intros v Hin.
    apply in_map_iff in Hin. destruct Hin as (x & <- & _).
    apply clamp_spec. }
  split; [|split].
  - eexists. split; [exact (quenching_polynomial_ok _ _ _ _ Hkey)|].
    split; [apply length_map|].
    intros i Hi raw.
    set (F := fun x => clamp (power_sum 0 coefficients x)).
    assert (HF : nth i (map F logM) 0 = clamp raw).
    { rewrite (nth_indep _ 0 (F 0)) by (rewrite length_map; exact Hi).
      apply (map_nth F). }
    rewrite HF. apply clamp_spec.
  - eexists. unfold mean_quenched_fraction_centrals.
    split; [exact (quenching_polynomial_ok _ _ _ _ Hkey)|].
    split; [apply length_map | apply Hall].
  - eexists. unfold mean_quenched_fraction_satellites.
    split; [exact (quenching_polynomial_ok _ _ _ _ Hkey)|].
    split; [apply length_map | apply Hall].
Qed.

(** A model with the line [2*x - 20] for the centrals, evaluated at
    [logM = [9; 10.25; 12]]: below 0, inside [0,1], above 1. *)
Lemma C4_quenching_polynomial_clamped_witness :
  exists out : list R,
    quenching_polynomial
      (mk "vdB03" "arXiv:0210495v3"
          [("logM_abcissa", [10; 10.5]); ("central_ordinates", [0; 1]);
           ("satellite_ordinates", [0; 1])]
          [-20; 2] [-20; 2])
      [9; 10.25; 12] [-20; 2] = Ok out
    /\ nth 0 out 0 = 0 /\ nth 1 out 0 = 0.5 /\ nth 2 out 0 = 1.
Proof.
  destruct (C4_quenching_polynomial_clamped
              (mk "vdB03" "arXiv:0210495v3"
                  [("logM_abcissa", [10; 10.5]); ("central_ordinates", [0; 1]);
                   ("satellite_ordinates", [0; 1])]
                  [-20; 2] [-20; 2])
              [10; 10.5] [9; 10.25; 12] [-20; 2] eq_refl)
    as ((out & Hout & _ & Hnth) & _).
  exists out. split; [exact Hout|].
  split; [|split].
  - destruct (Hnth 0%nat ltac:(cbn; lia)) as (_ & H & _).
    apply H. cbn. lra.
  - destruct (Hnth 1%nat ltac:(cbn; lia)) as (_ & _ & _ & H).
    rewrite H; cbn; lra.
  - destruct (Hnth 2%nat ltac:(cbn; lia)) as (_ & _ & H & _).
    apply H. cbn. lra.
Defined.

End QuenchingPolynomial.

(* ------------------------------------------------------------------ *)
(** ** The matrix of the quenching fit *)

Section ModelMatrix.
Import vdB03_Quenching_Model.

(** Row [i] of the matrix of the fit holds the powers 0 .. N-1 of
    abscissa [i]. *)
Definition vandermonde (abcissa : list R) : list (list R) :=
  map (fun x => map (fun k => x ^ k) (seq 0 (length abcissa))) abcissa.

Definition power_rows (abcissa : list R) (ks : list nat) : list (list R) :=
  map (fun k => map (fun x => x ^ k) abcissa) ks.

Lemma append_powers_concat (abcissa : list R) (ks : list nat) :
  forall columns : list R,
    append_powers ks abcissa columns
    = columns ++ concat (power_rows abcissa (map S ks)).
Proof.
  induction ks as [|k ks IH]; intros columns; cbn.
  - now rewrite app_nil_r.
  - rewrite IH, <- app_assoc. do 2 f_equal.
    apply map_ext. intros x. now rewrite Nat.add_1_r.
Qed.

Lemma ones_powers (abcissa : list R) :
  map (fun z => z + 1) (Np.zeros (length abcissa))
  = map (fun x => x ^ 0) abcissa.
Proof.
  rewrite zeros_map, List.map_map. apply map_ext. intros x. cbn. lra.
Qed.

Lemma columns_concat (abcissa : list R) :
  append_powers (seq 0 (length abcissa - 1)) abcissa
    (map (fun z => z + 1) (Np.zeros (length abcissa)))
  = concat (power_rows abcissa (seq 0 (length abcissa))).
Proof.
  rewrite append_powers_concat, ones_powers, seq_shift.
  destruct abcissa as [|x abcissa]; [reflexivity|].
  cbn [length]. rewrite Nat.sub_succ, Nat.sub_0_r.
  rewrite <- cons_seq. reflexivity.
Qed.

Lemma chunks_concat (n : nat) (rows : list (list R)) :
  Forall (fun row => length row = n) rows ->
  Np.chunks (length rows) n (concat rows) = rows.
Proof.
  induction 1 as [|row rows Hrow Hrows IH]; cbn.
  - reflexivity.
  - assert (Hfirst : firstn n (row ++ concat rows) = row).
    { rewrite <- Hrow, firstn_app, Nat.sub_diag, firstn_all.
      cbn [firstn]. apply app_nil_r. }
    assert (Hskip : skipn n (row ++ concat rows) = concat rows).
    { rewrite <- Hrow, skipn_app, Nat.sub_diag, skipn_all.
      reflexivity. }
    now rewrite Hfirst, Hskip, IH.
Qed.

Lemma power_rows_shape (abcissa : list R) (ks : list nat) :
  Forall (fun row => length row = length abcissa) (power_rows abcissa ks).
Proof.
  apply Forall_forall. intros row Hin.
  apply in_map_iff in Hin. destruct Hin as (k & <- & _).
  apply length_map.
Qed.

Lemma concat_length_rows (n : nat) (rows : list (list R)) :
  Forall (fun row => length row = n) rows ->
  length (concat rows) = (length rows * n)%nat.
Proof.
  induction 1 as [|row rows Hrow Hrows IH]; cbn.
  - reflexivity.
  - rewrite length_app, IH, Hrow. reflexivity.
Qed.

Lemma map_nth_seq {A : Type} (f : R -> A) (l : list R) :
  map (fun j => f (nth j l 0)) (seq 0 (length l)) = map f l.
Proof.
  induction l as [|x l IH]; cbn.
  - reflexivity.
  - f_equal. rewrite <- seq_shift, List.map_map. exact IH.
Qed.

Lemma transpose_power_rows (abcissa : list R) :
  Np.transpose (length abcissa)
    (power_rows abcissa (seq 0 (length abcissa)))
  = vandermonde abcissa.
Proof.
  unfold Np.transpose, vandermonde, power_rows.
  rewrite <- (map_nth_seq
                (fun x => map (fun k => x ^ k) (seq 0 (length abcissa)))).
  apply map_ext_in. intros j Hj. apply in_seq in Hj.
  rewrite List.map_map. apply map_ext. intros k.
  rewrite (nth_indep _ 0 (0 ^ k)) by (rewrite length_map; lia).
  apply (map_nth (fun x => x ^ k)).
Qed.

(** The system that [solve_for_quenching_polynomial_coefficients] hands
    to the solver. *)
Lemma solve_for_quenching_polynomial_coefficients_matrix
  {LA : LinearAlgebra} (abcissa fractions : list R) :
  solve_for_quenching_polynomial_coefficients abcissa fractions
  = linalg_solve (vandermonde abcissa) fractions.
Proof.
  unfold solve_for_quenching_polynomial_coefficients.
  rewrite columns_concat. unfold Np.reshape.
  rewrite (concat_length_rows (length abcissa))
    by apply power_rows_shape.
  unfold power_rows at 1. rewrite length_map, length_seq, Nat.eqb_refl.
  cbn [bind].
  pose proof (chunks_concat (length abcissa)
                (power_rows abcissa (seq 0 (length abcissa)))
                (power_rows_shape _ _)) as Hchunks.
  unfold power_rows at 1 in Hchunks.
  rewrite length_map, length_seq in Hchunks.
  now rewrite Hchunks, transpose_power_rows.
Qed.

Lemma vandermonde_square (abcissa : list R) :
  square (length abcissa) (vandermonde abcissa).
Proof.
  split.
  - apply length_map.
  - apply Forall_forall. intros row Hin.
    apply in_map_iff in Hin. destruct Hin as (x & <- & _).
    now rewrite length_map, length_seq.
Qed.

Lemma dot_powers (x : R) (cs : list R) :
  forall n : nat,
    dot (map (fun k => x ^ k) (seq n (length cs))) cs = power_sum n cs x.
Proof.
  induction cs as [|c cs IH]; intros n; cbn.
  - reflexivity.
  - rewrite IH. lra.
Qed.

Lemma matvec_vandermonde (abcissa cs : list R) :
  length cs = length abcissa ->
  matvec (vandermonde abcissa) cs = map (power_sum 0 cs) abcissa.
Proof.
  intros Hlen. unfold matvec, vandermonde. rewrite List.map_map.
  apply map_ext. intros x. rewrite <- Hlen. apply dot_powers.
Qed.

End ModelMatrix.

(* ------------------------------------------------------------------ *)
(** ** Polynomials through given points *)

Section Interpolation.

(** The value at [x] of the polynomial with coefficients [p], constant
    term first. *)
Definition peval (p : list R) (x : R) : R := power_sum 0 p x.

Lemma power_sum_shift (p : list R) (x : R) :
  forall n : nat, power_sum (S n) p x = x * power_sum n p x.
Proof.
  induction p as [|c p IH]; intros n; cbn.
  - lra.
  - rewrite IH. lra.
Qed.

Lemma peval_nil (x : R) : peval [] x = 0.
Proof. reflexivity. Qed.

Lemma peval_cons (c : R) (p : list R) (x : R) :
  peval (c :: p) x = c + x * peval p x.
Proof. unfold peval. cbn. rewrite power_sum_shift. lra. Qed.

(** *** Division by [X - a] *)

Fixpoint pdiv (a : R) (p : list R) : list R :=
  match p with
  | [] => []
  | _ :: p' =>
      match p' with
      | [] => []
      | _ :: _ => peval p' a :: pdiv a p'
      end
  end.

Lemma pdiv_cons (a c c' : R) (p : list R) :
  pdiv a (c :: c' :: p) = peval (c' :: p) a :: pdiv a (c' :: p).
Proof. reflexivity. Qed.

Lemma pdiv_length (a : R) (p : list R) :
  length (pdiv a p) = pred (length p).
Proof.
  induction p as [|c p IH]; [reflexivity|].
  destruct p as [|c' p]; [reflexivity|].
  rewrite pdiv_cons. cbn [length pred]. rewrite IH. reflexivity.
Qed.

Lemma pdiv_spec (a t : R) (p : list R) :
  peval p t = peval p a + (t - a) * peval (pdiv a p) t.
Proof.
  induction p as [|c p IH]; [cbn [pdiv]; rewrite !peval_nil; lra|].
  destruct p as [|c' p].
  - cbn [pdiv]. rewrite !peval_cons, !peval_nil. lra.
  - rewrite pdiv_cons, (peval_cons c), (peval_cons c _ a).
    rewrite (peval_cons (peval (c' :: p) a)).
    rewrite IH. lra.
Qed.

Lemma pdiv_zero (a : R) (p : list R) :
  peval p a = 0 ->
  Forall (fun c => c = 0) (pdiv a p) ->
  Forall (fun c => c = 0) p.
Proof.
  induction p as [|c p IH]; intros Hroot Hq; [constructor|].
  destruct p as [|c' p].
  - rewrite peval_cons, peval_nil in Hroot.
    constructor; [lra | constructor].
  - rewrite pdiv_cons in Hq. inversion Hq as [|? ? Hhead Htail]; subst.
    specialize (IH Hhead Htail).
    rewrite peval_cons, Hhead in Hroot.
    constructor; [lra | exact IH].
Qed.

(** A polynomial with as many distinct roots as coefficients is zero. *)
Lemma roots_zero (xs : list R) :
  forall p : list R,
    NoDup xs -> length p = length xs ->
    (forall x : R, In x xs -> peval p x = 0) ->
    Forall (fun c => c = 0) p.
Proof.
  induction xs as [|x xs IH]; intros p Hnd Hlen Hroots.
  - destruct p; [constructor | discriminate].
  - inversion Hnd as [|? ? Hnin Hnd']; subst.
    apply (pdiv_zero x); [apply Hroots; now left|].
    apply IH; [exact Hnd' | |].
    + rewrite pdiv_length, Hlen. reflexivity.
    + intros y Hy.
      pose proof (pdiv_spec x y p) as Hdiv.
      rewrite (Hroots y (or_intror Hy)), (Hroots x (or_introl eq_refl))
        in Hdiv.
      assert (Hne : y - x <> 0).
      { intros Heq. apply Hnin. replace x with y by lra. exact Hy. }
      apply (Rmult_eq_reg_l (y - x)); [lra | exact Hne].
Qed.

(** *** Difference of two polynomials *)

Fixpoint psub (p q : list R) : list R :=
  match p, q with
  | a :: p', b :: q' => a - b :: psub p' q'
  | _, _ => []
  end.

Lemma psub_length (p : list R) :
  forall q : list R, length q = length p -> length (psub p q) = length p.
Proof.
  induction p as [|a p IH]; intros [|b q] Hlen; cbn in *;
    try reflexivity; try discriminate.
  f_equal. apply IH. lia.
Qed.

Lemma psub_peval (x : R) (p : list R) :
  forall q : list R, length q = length p ->
    peval (psub p q) x = peval p x - peval q x.
Proof.
  induction p as [|a p IH]; intros [|b q] Hlen; cbn in Hlen;
    try discriminate.
  - cbn [psub]. rewrite !peval_nil. lra.
  - cbn [psub]. rewrite !peval_cons, IH by lia. lra.
Qed.

Lemma psub_zero (p : list R) :
  forall q : list R, length q = length p ->
    Forall (fun c => c = 0) (psub p q) -> p = q.
Proof.
  induction p as [|a p IH]; intros [|b q] Hlen Hz; cbn in Hlen;
    try discriminate; [reflexivity|].
  cbn [psub] in Hz. inversion Hz as [|? ? Hhead Htail]; subst.
  f_equal; [lra | apply IH; [lia | exact Htail]].
Qed.

(** Two polynomials with [N] coefficients that agree at [N] distinct
    points are equal. *)
Lemma interpolation_unique (xs p q : list R) :
  NoDup xs -> length p = length xs -> length q = length xs ->
  map (peval p) xs = map (peval q) xs ->
  p = q.
Proof.
  intros Hnd Hp Hq Heq.
  apply psub_zero; [congruence|].
  apply (roots_zero xs); [exact Hnd | | ].
  - rewrite psub_length; congruence.
  - intros x Hx. rewrite psub_peval by congruence.
    assert (Hpq : forall l, map (peval p) l = map (peval q) l ->
                            In x l -> peval p x = peval q x).
    { induction l as [|y l IHl]; intros Hm Hin; [destruct Hin|].
      cbn [map] in Hm. injection Hm as Hhd Htl.
      destruct Hin as [Hy|Hy]; [now subst | now apply IHl]. }
    rewrite (Hpq xs Heq Hx). lra.
Qed.

(** *** Newton's construction *)

(** The product of [X - a] and [q]. *)
Definition mul_linear (a : R) (q : list R) : list R :=
  Np.add (0 :: q) (map (fun c => - a * c) (q ++ [0])).

(** The divided differences of the points after the first. *)
Fixpoint quotients (x y : R) (xs ys : list R) : list R :=
  match xs, ys with
  | xi :: xs', yi :: ys' => (yi - y) / (xi - x) :: quotients x y xs' ys'
  | _, _ => []
  end.

Fixpoint newton (xs ys : list R) : list R :=
  match xs, ys with
  | x :: xs', y :: ys' =>
      match mul_linear x (newton xs' (quotients x y xs' ys')) with
      | h :: t => y + h :: t
      | [] => [y]
      end
  | _, _ => []
  end.

Lemma add_length (p : list R) :
  forall q : list R, length q = length p -> length (Np.add p q) = length p.
Proof.
  induction p as [|a p IH]; intros [|b q] Hlen; cbn in *;
    try reflexivity; try discriminate.
  f_equal. apply IH. lia.
Qed.

Lemma add_peval (x : R) (p : list R) :
  forall q : list R, length q = length p ->
    peval (Np.add p q) x = peval p x + peval q x.
Proof.
  induction p as [|a p IH]; intros [|b q] Hlen; cbn in Hlen;
    try discriminate.
  - cbn [Np.add]. rewrite !peval_nil. lra.
  - cbn [Np.add]. rewrite !peval_cons, IH by lia. lra.
Qed.

Lemma scale_peval (k x : R) (p : list R) :
  peval (map (fun c => k * c) p) x = k * peval p x.
Proof.
  induction p as [|a p IH]; cbn [map].
  - rewrite peval_nil. lra.
  - rewrite !peval_cons, IH. lra.
Qed.

Lemma snoc0_peval (x : R) (p : list R) : peval (p ++ [0]) x = peval p x.
Proof.
  induction p as [|a p IH]; cbn [app].
  - rewrite peval_cons, !peval_nil. lra.
  - rewrite !peval_cons, IH. reflexivity.
Qed.

Lemma mul_linear_length (a : R) (q : list R) :
  length (mul_linear a q) = S (length q).
Proof.
  unfold mul_linear. rewrite add_length; [reflexivity|].
  rewrite length_map, length_app. cbn. lia.
Qed.

Lemma mul_linear_peval (a x : R) (q : list R) :
  peval (mul_linear a q) x = (x - a) * peval q x.
Proof.
  unfold mul_linear. rewrite add_peval.
  - rewrite peval_cons, scale_peval, snoc0_peval. lra.
  - rewrite length_map, length_app. cbn. lia.
Qed.

Lemma quotients_length (x y : R) (xs : list R) :
  forall ys : list R, length ys = length xs ->
    length (quotients x y xs ys) = length xs.
Proof.
  induction xs as [|xi xs IH]; intros [|yi ys] Hlen; cbn in *;
    try reflexivity; try discriminate.
  f_equal. apply IH. lia.
Qed.

Lemma newton_cons (x y : R) (xs ys : list R) :
  exists h t,
    mul_linear x (newton xs (quotients x y xs ys)) = h :: t
    /\ newton (x :: xs) (y :: ys) = y + h :: t.
Proof.
  cbn [newton].
  pose proof (mul_linear_length x (newton xs (quotients x y xs ys))) as Hlen.
  destruct (mul_linear x (newton xs (quotients x y xs ys))) as [|h t];
    [discriminate|].
  now exists h, t.
Qed.

Lemma newton_length (xs : list R) :
  forall ys : list R, length ys = length xs ->
    length (newton xs ys) = length xs.
Proof.
  induction xs as [|x xs IH]; intros [|y ys] Hlen; cbn in Hlen;
    try reflexivity; try discriminate.
  destruct (newton_cons x y xs ys) as (h & t & Hmul & ->).
  pose proof (mul_linear_length x (newton xs (quotients x y xs ys))) as Hl.
  rewrite Hmul, IH in Hl by (apply quotients_length; lia).
  cbn in *. lia.
Qed.

Lemma newton_peval (x y t : R) (xs ys : list R) :
  peval (newton (x :: xs) (y :: ys)) t
  = y + (t - x) * peval (newton xs (quotients x y xs ys)) t.
Proof.
  destruct (newton_cons x y xs ys) as (h & tl & Hmul & ->).
  rewrite <- mul_linear_peval, Hmul, !peval_cons. lra.
Qed.

Lemma quotients_recover (x y : R) (f : R -> R) (xs : list R) :
  forall ys : list R,
    ~ In x xs -> length ys = length xs ->
    map f xs = quotients x y xs ys ->
    map (fun t => y + (t - x) * f t) xs = ys.
Proof.
  induction xs as [|xi xs IH]; intros [|yi ys] Hnin Hlen Hq; cbn in *;
    try reflexivity; try discriminate.
  injection Hq as Hhd Htl. f_equal.
  - rewrite Hhd. field. intros Heq. apply Hnin. left. lra.
  - apply IH; [tauto | lia | exact Htl].
Qed.

(** The polynomial of Newton's construction passes through the
    points. *)
Lemma newton_interpolates (xs : list R) :
  forall ys : list R,
    NoDup xs -> length ys = length xs ->
    map (peval (newton xs ys)) xs = ys.
Proof.
  induction xs as [|x xs IH]; intros [|y ys] Hnd Hlen; cbn in Hlen;
    try reflexivity; try discriminate.
  inversion Hnd as [|? ? Hnin Hnd']; subst.
  cbn [map]. f_equal.
  - rewrite newton_peval. lra.
  - rewrite (map_ext _ _ (fun t => newton_peval x y t xs ys)).
    apply quotients_recover; [exact Hnin | lia |].
    apply IH; [exact Hnd' | apply quotients_length; lia].
Qed.

(** *** The matrix of the fit is regular exactly on distinct abscissas *)

Lemma vandermonde_regular (abcissa : list R) :
  NoDup abcissa -> regular (length abcissa) (vandermonde abcissa).
Proof.
  intros Hnd b Hb. exists (newton abcissa b).
  assert (Hlen : length (newton abcissa b) = length abcissa)
    by now apply newton_length.
  split; [exact Hlen|]. split.
  - rewrite matvec_vandermonde by exact Hlen.
    now apply newton_interpolates.
  - intros x' Hx' Hsol.
    rewrite matvec_vandermonde in Hsol by exact Hx'.
    apply (interpolation_unique abcissa); try assumption.
    rewrite (newton_interpolates abcissa b Hnd Hb). exact Hsol.
Qed.

Lemma repeated_indices (l : list R) :
  ~ NoDup l ->
  exists i j : nat,
    (i < length l)%nat /\ (j < length l)%nat /\ i <> j
    /\ nth i l 0 = nth j l 0.
Proof.
  intros Hdup.
  destruct (excluded_middle_informative
              (exists i j : nat,
                  (i < length l)%nat /\ (j < length l)%nat /\ i <> j
                  /\ nth i l 0 = nth j l 0)) as [Hex|Hnex];
    [exact Hex|].
  exfalso. apply Hdup. apply (NoDup_nth l 0). intros i j Hi Hj Heq.
  destruct (Nat.eq_dec i j) as [Hij|Hij]; [exact Hij|].
  exfalso. apply Hnex. now exists i, j.
Qed.

Lemma vandermonde_singular (abcissa : list R) :
  ~ NoDup abcissa -> ~ regular (length abcissa) (vandermonde abcissa).
Proof.
  intros Hdup Hreg.
  destruct (repeated_indices abcissa Hdup) as (i & j & Hi & Hj & Hij & Heq).
  set (b := map (fun k => if Nat.eqb k i then 1 else 0)
                (seq 0 (length abcissa))).
  assert (Hb : length b = length abcissa)
    by (unfold b; now rewrite length_map, length_seq).
  destruct (Hreg b Hb) as (x & Hx & Hsol & _).
  rewrite matvec_vandermonde in Hsol by exact Hx.
  assert (Hnth : forall k, (k < length abcissa)%nat ->
                   peval x (nth k abcissa 0)
                   = if Nat.eqb k i then 1 else 0).
  { intros k Hk.
    change (peval x (nth k abcissa 0)) with (power_sum 0 x (nth k abcissa 0)).
    rewrite <- (map_nth (power_sum 0 x)), Hsol. unfold b.
    rewrite (nth_indep _ (power_sum 0 x 0) 0)
      by now rewrite length_map, length_seq.
    rewrite (nth_indep _ 0 (if Nat.eqb (length abcissa) i then 1 else 0))
      by now rewrite length_map, length_seq.
    rewrite (map_nth (fun k => if Nat.eqb k i then 1 else 0)).
    now rewrite seq_nth. }
  pose proof (Hnth i Hi) as Hvi. pose proof (Hnth j Hj) as Hvj.
  rewrite Nat.eqb_refl in Hvi.
  apply Nat.eqb_neq in Hij. rewrite Nat.eqb_sym, Hij in Hvj.
  rewrite Heq in Hvi. lra.
Qed.

End Interpolation.

(* ------------------------------------------------------------------ *)
(** ** The quenching fit *)

Section QuenchingFit.
Import vdB03_Quenching_Model.
Context {LA : LinearAlgebra} {LAS : LinearAlgebraSpec LA}.

(** C5. For [N] control points with pairwise distinct abscissas,
    [solve_for_quenching_polynomial_coefficients] returns [N]
    coefficients, and at every control point [i] the polynomial
    [coeff[0] + coeff[1]*x + ... + coeff[N-1]*x**(N-1)] at
    [x = logM_abcissa[i]] equals [quenched_fractions[i]]. *)
Theorem C5_fit_interpolates (logM_abcissa quenched_fractions : list R) :
  length quenched_fractions = length logM_abcissa ->
  NoDup logM_abcissa ->
  exists coeff : list R,
    solve_for_quenching_polynomial_coefficients
      logM_abcissa quenched_fractions = Ok coeff
    /\ length coeff = length logM_abcissa
    /\ forall i : nat, (i < length logM_abcissa)%nat ->
         power_sum 0 coeff (nth i logM_abcissa 0)
         = nth i quenched_fractions 0.
Proof.
  intros Hlen Hnd.
  rewrite solve_for_quenching_polynomial_coefficients_matrix.
  destruct (solve_regular (vandermonde logM_abcissa) quenched_fractions)
    as (coeff & Hsolve & Hcoeff & Hsol).
  - rewrite Hlen. apply vandermonde_square.
  - rewrite Hlen. now apply vandermonde_regular.
  - exists coeff. split; [exact Hsolve|].
    split; [congruence|].
    intros i Hi.
    rewrite matvec_vandermonde in Hsol by congruence.
    rewrite <- Hsol.
    rewrite (nth_indep (map (power_sum 0 coeff) logM_abcissa)
               0 (power_sum 0 coeff 0))
      by (rewrite length_map; exact Hi).
    symmetry. apply (map_nth (power_sum 0 coeff)).
Qed.

(** C7. With a repeated abscissa the call ends in the [LinAlgError] of
    the solver, and so does the constructor that makes the call: neither
    returns coefficients. *)
Theorem C7_degenerate_abscissas_raise
  (logM_abcissa quenched_fractions : list R) :
  length quenched_fractions = length logM_abcissa ->
  ~ NoDup logM_abcissa ->
  solve_for_quenching_polynomial_coefficients
    logM_abcissa quenched_fractions = Raise (LinAlgError msg_singular)
  /\ forall (D : Defaults) (d : dict (list R)),
       getitem d "logM_abcissa" = Ok logM_abcissa ->
       getitem d "central_ordinates" = Ok quenched_fractions ->
       __init__ (Some d) = Raise (LinAlgError msg_singular).
Proof.
  intros Hlen Hdup.
  assert (Hraise : solve_for_quenching_polynomial_coefficients
                     logM_abcissa quenched_fractions
                   = Raise (LinAlgError msg_singular)).
  { rewrite solve_for_quenching_polynomial_coefficients_matrix.
    apply solve_singular.
    - rewrite Hlen. apply vandermonde_square.
    - rewrite Hlen. now apply vandermonde_singular. }
  split; [exact Hraise|].
  intros D d Habc Hord. unfold __init__.
  rewrite Habc, Hord. cbn [bind]. rewrite Hraise. reflexivity.
Qed.

End QuenchingFit.

Lemma NoDup_12_13 : NoDup [12; 13].
Proof.
  constructor; [|constructor; [|constructor]]; cbn; intros H.
  - destruct H as [H|H]; [lra | exact H].
  - exact H.
Qed.

(** The control points (12, 0.25) and (13, 0.75) at C5, with the exact
    solver. *)
Lemma C5_fit_interpolates_witness :
  exists coeff : list R,
    @vdB03_Quenching_Model.solve_for_quenching_polynomial_coefficients
      exact_linear_algebra [12; 13] [0.25; 0.75] = Ok coeff
    /\ power_sum 0 coeff 12 = 0.25
    /\ power_sum 0 coeff 13 = 0.75.
Proof.
  destruct (@C5_fit_interpolates exact_linear_algebra
              exact_linear_algebra_spec [12; 13] [0.25; 0.75]
              eq_refl NoDup_12_13) as (coeff & Hsolve & _ & Hpts).
  exists coeff. split; [exact Hsolve|]. split.
  - apply (Hpts 0%nat). cbn. lia.
  - apply (Hpts 1%nat). cbn. lia.
Defined.

Lemma dup_12_12 : ~ NoDup [12; 12].
Proof.
  intros H. apply NoDup_cons_iff in H. destruct H as [Hnin _].
  apply Hnin. now left.
Qed.

(** The abscissas [12; 12] at C7, with the exact solver. *)
Lemma C7_degenerate_abscissas_raise_witness :
  @vdB03_Quenching_Model.solve_for_quenching_polynomial_coefficients
    exact_linear_algebra [12; 12] [0.25; 0.75]
  = Raise (LinAlgError msg_singular).
Proof.
  apply (@C7_degenerate_abscissas_raise exact_linear_algebra
           exact_linear_algebra_spec [12; 12] [0.25; 0.75]
           eq_refl dup_12_12).
Defined.

(* ================================================================== *)
(** * Further properties of the code *)

(* ------------------------------------------------------------------ *)
(** ** The concentration-mass relation *)

Section Concentration.

(** The relation of Klypin et al. at one mass. *)
Definition concentration_at (x : R) : R :=
  9.6 * Rpower (Rpower 10 x / 1e12) (-0.075).

Lemma combine_zeros_add (a : list R) :
  map (fun z_m => fst z_m + snd z_m) (combine (Np.zeros (length a)) a) = a.
Proof.
  unfold Np.zeros. induction a as [|x a IH]; cbn.
  - reflexivity.
  - rewrite IH. f_equal. lra.
Qed.

Lemma anatoly_concentration_map (logM : list R) :
  anatoly_concentration logM = map concentration_at logM.
Proof.
  unfold anatoly_concentration.
  rewrite <- (length_map Np.pow10 logM), combine_zeros_add, List.map_map.
  reflexivity.
Qed.

Lemma Rpower_10_12 : Rpower 10 12 = 1e12.
Proof.
  replace 12 with (INR 12) by (cbn; lra).
  rewrite Rpower_pow by lra. cbn. lra.
Qed.

Lemma concentration_at_pivot : concentration_at 12 = 9.6.
Proof.
  unfold concentration_at. rewrite Rpower_10_12.
  replace (1e12 / 1e12) with 1 by lra.
  unfold Rpower. rewrite ln_1, Rmult_0_r, exp_0. lra.
Qed.

Lemma concentration_at_pos (x : R) : 0 < concentration_at x.
Proof.
  unfold concentration_at.
  apply Rmult_lt_0_compat; [lra | apply exp_pos].
Qed.

Lemma concentration_at_decreasing (x y : R) :
  x < y -> concentration_at y < concentration_at x.
Proof.
  intros Hxy. unfold concentration_at.
  apply Rmult_lt_compat_l; [lra|].
  assert (Hpow : Rpower 10 x < Rpower 10 y) by (apply Rpower_lt; lra).
  assert (Hx : 0 < Rpower 10 x) by apply exp_pos.
  assert (Hlt : Rpower 10 x / 1e12 < Rpower 10 y / 1e12) by lra.
  assert (Hpos : 0 < Rpower 10 x / 1e12) by lra.
  pose proof (ln_increasing _ _ Hpos Hlt) as Hln.
  unfold Rpower at 1 3. apply exp_increasing. nra.
Qed.

(** X1. [anatoly_concentration] returns one concentration per mass, in
    order: each is positive, a larger mass has a smaller concentration,
    and the mass [10**12] has the concentration 9.6. *)
Theorem X1_anatoly_concentration_decreasing (logM : list R) :
  length (anatoly_concentration logM) = length logM
  /\ forall i : nat, (i < length logM)%nat ->
       nth i (anatoly_concentration logM) 0
       = 9.6 * Rpower (Rpower 10 (nth i logM 0) / 1e12) (-0.075)
       /\ 0 < nth i (anatoly_concentration logM) 0
       /\ (nth i logM 0 = 12 -> nth i (anatoly_concentration logM) 0 = 9.6)
       /\ forall j : nat, (j < length logM)%nat ->
            nth i logM 0 < nth j logM 0 ->
            nth j (anatoly_concentration logM) 0
            < nth i (anatoly_concentration logM) 0.
Proof.
  rewrite anatoly_concentration_map.
  split; [apply length_map|].
  assert (Hnth : forall k, (k < length logM)%nat ->
                   nth k (map concentration_at logM) 0
                   = concentration_at (nth k logM 0)).
  { intros k Hk.
    rewrite (nth_indep _ 0 (concentration_at 0))
      by (rewrite length_map; exact Hk).
    apply (map_nth concentration_at). }
  intros i Hi. rewrite (Hnth i Hi).
  split; [reflexivity|].
  split; [apply concentration_at_pos|].
  split.
  - intros ->. apply concentration_at_pivot.
  - intros j Hj Hlt. rewrite (Hnth j Hj).
    now apply concentration_at_decreasing.
Qed.

(** The masses [10**12] and [10**14] at X1. *)
Lemma X1_anatoly_concentration_decreasing_witness :
  nth 0 (anatoly_concentration [12; 14]) 0 = 9.6
  /\ nth 1 (anatoly_concentration [12; 14]) 0
     < nth 0 (anatoly_concentration [12; 14]) 0.
Proof.
  destruct (X1_anatoly_concentration_decreasing [12; 14]) as [_ H].
  destruct (H 0%nat ltac:(cbn; lia)) as (_ & _ & Hpivot & Hdec).
  split.
  - apply Hpivot. reflexivity.
  - apply (Hdec 1%nat); cbn; [lia | lra].
Defined.

End Concentration.

(* ------------------------------------------------------------------ *)
(** ** The cumulative NFW distribution of the occupation module *)

Section CumulativeNFW.

Lemma cumulative_NFW_PDF_enclosed (x c : R) :
  cumulative_NFW_PDF x c = enclosed (x * c) / enclosed c.
Proof. reflexivity. Qed.

(** X2. For a concentration [c > 0], [cumulative_NFW_PDF] lies strictly
    between 0 and 1 on 0 < x < 1, as its docstring says, increases
    strictly with [x] there, and reaches 1 at [x = 1]. *)
Theorem X2_cumulative_NFW_PDF_is_a_distribution (c : R) :
  0 < c ->
  (forall x : R, 0 < x < 1 -> 0 < cumulative_NFW_PDF x c < 1)
  /\ (forall x1 x2 : R, 0 < x1 -> x1 < x2 -> x2 <= 1 ->
        cumulative_NFW_PDF x1 c < cumulative_NFW_PDF x2 c)
  /\ cumulative_NFW_PDF 1 c = 1.
Proof.
  intros Hc.
  pose proof (enclosed_pos c Hc) as Hnorm.
  assert (Hmono : forall x1 x2 : R, 0 < x1 -> x1 < x2 ->
            cumulative_NFW_PDF x1 c < cumulative_NFW_PDF x2 c).
  { intros x1 x2 H1 H12. rewrite !cumulative_NFW_PDF_enclosed.
    apply Rmult_lt_compat_r; [now apply Rinv_0_lt_compat|].
    apply enclosed_increasing.
    - apply Rlt_le, Rmult_lt_0_compat; lra.
    - apply Rmult_lt_compat_r; lra. }
  assert (Hone : cumulative_NFW_PDF 1 c = 1).
  { rewrite cumulative_NFW_PDF_enclosed, Rmult_1_l.
    apply Rdiv_diag. lra. }
  split; [|split].
  - intros x Hx. split.
    + rewrite cumulative_NFW_PDF_enclosed.
      apply Rdiv_lt_0_compat; [|exact Hnorm].
      apply enclosed_pos, Rmult_lt_0_compat; lra.
    + rewrite <- Hone. apply Hmono; lra.
  - intros x1 x2 H1 H12 _. now apply Hmono.
  - exact Hone.
Qed.

(** The concentration 5 and the radii 1/4 and 1/2 at X2. *)
Lemma X2_cumulative_NFW_PDF_is_a_distribution_witness :
  0 < cumulative_NFW_PDF (1/4) 5 < 1
  /\ cumulative_NFW_PDF (1/4) 5 < cumulative_NFW_PDF (1/2) 5.
Proof.
  destruct (X2_cumulative_NFW_PDF_is_a_distribution 5 ltac:(lra))
    as (Hrange & Hmono & _).
  split; [apply Hrange; lra | apply Hmono; lra].
Defined.

End CumulativeNFW.

(* ------------------------------------------------------------------ *)
(** ** Errors of the mean occupations *)

Section OccupationErrors.
Import Zheng07_HOD_Model.
Context {SF : SpecialFunctions}.

(** The first key of [keys] that the dictionary lacks. *)
Fixpoint first_missing {V : Type} (d : dict V) (keys : list string)
  : option string :=
  match keys with
  | [] => None
  | k :: rest =>
      match getitem d k with
      | Ok _ => first_missing d rest
      | Raise _ => Some k
      end
  end.

Lemma getitem_raise {V : Type} (d : dict V) (k : string) (e : exn) :
  getitem d k = Raise e -> e = KeyError k.
Proof.
  induction d as [|[k' v] d IH]; cbn.
  - intros H. now injection H as <-.
  - destruct (String.eqb k' k); [discriminate | exact IH].
Qed.

Definition msg_not_array : string :=
  "Input logM to mean_ncen must be a numpy array".

(** X3. An argument that is not a numpy array makes [mean_ncen] raise
    [TypeError], and [mean_nsat] raise the same error with the same
    message (which names [mean_ncen]); the test comes before any lookup in
    the parameter dictionary, so it does not depend on the
    dictionary. *)
Theorem X3_occupations_reject_non_arrays (self : t) (logM : value) :
  (forall a : list R, logM <> NdArray a) ->
  mean_ncen self logM = Raise (TypeError msg_not_array)
  /\ mean_nsat self logM = Raise (TypeError msg_not_array).
Proof.
  intros Hna. destruct logM; try (split; reflexivity).
  now elim (Hna a).
Qed.

Lemma mean_ncen_missing_key (self : t) (logM : list R) (k : string) :
  first_missing (parameter_dict self) ["logMmin_cen"; "sigma_logM"]
  = Some k ->
  mean_ncen self (NdArray logM) = Raise (KeyError k).
Proof.
  cbn [first_missing]. unfold mean_ncen.
  destruct (getitem (parameter_dict self) "logMmin_cen") as [lmin|e] eqn:H1.
  + destruct (getitem (parameter_dict self) "sigma_logM") as [sig|e] eqn:H2;
      [discriminate|].
    intros H. injection H as <-. cbn [bind].
    now rewrite (getitem_raise _ _ _ H2).
  + intros H. injection H as <-. cbn [bind].
    now rewrite (getitem_raise _ _ _ H1).
Qed.

Lemma mean_nsat_missing_key (self : t) (logM : list R) (k : string) :
  first_missing (parameter_dict self)
    ["logM0_sat"; "logM1_sat"; "logMmin_cen"; "sigma_logM"; "alpha_sat"]
  = Some k ->
  mean_nsat self (NdArray logM) = Raise (KeyError k).
Proof.
  cbn [first_missing]. unfold mean_nsat.
  destruct (getitem (parameter_dict self) "logM0_sat") as [l0|e] eqn:H0;
    [|intros H; injection H as <-; cbn [bind];
      now rewrite (getitem_raise _ _ _ H0)].
  destruct (getitem (parameter_dict self) "logM1_sat") as [l1|e] eqn:H1;
    [|intros H; injection H as <-; cbn [bind];
      now rewrite (getitem_raise _ _ _ H1)].
  cbn [bind]. unfold mean_ncen.
  destruct (getitem (parameter_dict self) "logMmin_cen") as [lmin|e] eqn:Hm;
    [|intros H; injection H as <-; cbn [bind];
      now rewrite (getitem_raise _ _ _ Hm)].
  destruct (getitem (parameter_dict self) "sigma_logM") as [sig|e] eqn:Hs;
    [|intros H; injection H as <-; cbn [bind];
      now rewrite (getitem_raise _ _ _ Hs)].
  cbn [bind].
  destruct (getitem (parameter_dict self) "alpha_sat") as [al|e] eqn:Ha;
    [discriminate|].
  intros H. injection H as <-. cbn [bind].
  now rewrite (getitem_raise _ _ _ Ha).
Qed.

(** X4. On an array, [mean_ncen] looks up ['logMmin_cen'] and then
    ['sigma_logM'], and [mean_nsat] looks up ['logM0_sat'], ['logM1_sat'],
    the two keys of [mean_ncen] and then ['alpha_sat']: the call raises
    [KeyError] for the first of these keys that the dictionary lacks,
    also on an empty array, and returns an array of the length of its
    argument when none is missing. *)
Theorem X4_occupations_key_errors (self : t) (logM : list R) :
  (forall k : string,
     first_missing (parameter_dict self) ["logMmin_cen"; "sigma_logM"]
     = Some k ->
     mean_ncen self (NdArray logM) = Raise (KeyError k))
  /\ (forall k : string,
        first_missing (parameter_dict self)
          ["logM0_sat"; "logM1_sat"; "logMmin_cen"; "sigma_logM";
           "alpha_sat"] = Some k ->
        mean_nsat self (NdArray logM) = Raise (KeyError k))
  /\ (first_missing (parameter_dict self)
        ["logM0_sat"; "logM1_sat"; "logMmin_cen"; "sigma_logM"; "alpha_sat"]
      = None ->
      exists ncen nsat : list R,
        mean_ncen self (NdArray logM) = Ok ncen
        /\ mean_nsat self (NdArray logM) = Ok nsat
        /\ length ncen = length logM /\ length nsat = length logM).
Proof.
  split; [|split].
  - intros k. apply mean_ncen_missing_key.
  - intros k. apply mean_nsat_missing_key.
  - cbn [first_missing].
    destruct (getitem (parameter_dict self) "logM0_sat") as [l0|e] eqn:H0;
      [|discriminate].
    destruct (getitem (parameter_dict self) "logM1_sat") as [l1|e] eqn:H1;
      [|discriminate].
    destruct (getitem (parameter_dict self) "logMmin_cen") as [lmin|e] eqn:Hm;
      [|discriminate].
    destruct (getitem (parameter_dict self) "sigma_logM") as [sig|e] eqn:Hs;
      [|discriminate].
    destruct (getitem (parameter_dict self) "alpha_sat") as [al|e] eqn:Ha;
      [|discriminate].
    intros _. eexists. eexists.
    split; [exact (mean_ncen_ok self logM lmin sig Hm Hs)|].
    split; [exact (mean_nsat_ok self logM lmin sig l0 l1 al Hm Hs H0 H1 Ha)|].
    split; apply length_map.
Qed.

End OccupationErrors.

(** A string and the model without parameters at X3. *)
Lemma X3_occupations_reject_non_arrays_witness :
  @Zheng07_HOD_Model.mean_nsat real_special_functions
    (Zheng07_HOD_Model.mk "Zheng07" "arXiv:0703457" [] None) (PyStr "12.5")
  = Raise (TypeError msg_not_array).
Proof.
  apply (@X3_occupations_reject_non_arrays real_special_functions
           (Zheng07_HOD_Model.mk "Zheng07" "arXiv:0703457" [] None)
           (PyStr "12.5")).
  discriminate.
Defined.

(** A dictionary without ['alpha_sat'] and the empty array at X4. *)
Lemma X4_occupations_key_errors_witness :
  @Zheng07_HOD_Model.mean_nsat real_special_functions
    (Zheng07_HOD_Model.mk "Zheng07" "arXiv:0703457"
       [("logMmin_cen", 11.75); ("sigma_logM", 0.28); ("logM0_sat", 11.69);
        ("logM1_sat", 13.01)] None)
    (NdArray [])
  = Raise (KeyError "alpha_sat").
Proof.
  destruct (@X4_occupations_key_errors real_special_functions
              (Zheng07_HOD_Model.mk "Zheng07" "arXiv:0703457"
                 [("logMmin_cen", 11.75); ("sigma_logM", 0.28);
                  ("logM0_sat", 11.69); ("logM1_sat", 13.01)] None)
              []) as (_ & Hsat & _).
  apply Hsat. reflexivity.
Defined.

(* ------------------------------------------------------------------ *)
(** ** The published parameters *)

Section Published.
Import Zheng07_HOD_Model.

(** Row [i] of Table 1 of Zheng et al., as a parameter dictionary. *)
Definition table1_row (i : nat) : dict R :=
  [("logMmin_cen",
    nth i [11.35;11.46;11.6;11.75;12.02;12.3;12.79;13.38;14.22] 0);
   ("sigma_logM", nth i [0.25;0.24;0.26;0.28;0.26;0.21;0.39;0.51;0.77] 0);
   ("logM0_sat",
    nth i [11.2;10.59;11.49;11.69;11.38;11.84;11.92;13.94;14.0] 0);
   ("logM1_sat",
    nth i [12.4;12.68;12.83;13.01;13.31;13.58;13.94;13.91;14.69] 0);
   ("alpha_sat", nth i [0.83;0.97;1.02;1.06;1.06;1.12;1.15;1.04;0.87] 0);
   ("fconc", 1.0)].

Ltac decide_thresholds :=
  repeat match goal with
    | |- context [Req_dec_T ?a ?b] =>
        destruct (Req_dec_T a b); [try (exfalso; lra) | try (exfalso; lra)]
    end.

Lemma where_eq_tabulated (i : nat) (x : R) :
  nth_error tabulated_thresholds i = Some x ->
  Np.where_eq tabulated_thresholds x = [i].
Proof.
  unfold tabulated_thresholds.
  do 9 (destruct i as [|i];
        [cbn [nth_error]; intros H; injection H as <-;
         unfold Np.where_eq; cbn [Np.where_eq_from];
         decide_thresholds; reflexivity|]).
  cbn [nth_error]. destruct i; discriminate.
Qed.

Lemma published_parameters_match (self : t) (v : value) (x : R) (i : nat) :
  threshold_number v = Some x ->
  nth_error tabulated_thresholds i = Some x ->
  published_parameters self v
  = ([], Ok (set_threshold self x, table1_row i)).
Proof.
  intros Hnum Hrow.
  rewrite (published_parameters_float self v x Hnum
             (tabulated_convertible v x Hnum (nth_error_In _ _ Hrow))).
  unfold published_parameters. rewrite iobind_ret.
  cbn [Zheng07_HOD_Model.threshold set_threshold].
  rewrite threshold_array_eq, (where_eq_tabulated i x Hrow).
  assert (Hi : (i < 9)%nat).
  { apply (nth_error_Some tabulated_thresholds i). now rewrite Hrow. }
  do 9 (destruct i as [|i]; [reflexivity|]). lia.
Qed.

Lemma table1_row_keys (i : nat) :
  (i < 9)%nat ->
  exists lmin sig l0 l1 alpha : R,
    getitem (table1_row i) "logMmin_cen" = Ok lmin
    /\ getitem (table1_row i) "sigma_logM" = Ok sig
    /\ getitem (table1_row i) "logM0_sat" = Ok l0
    /\ getitem (table1_row i) "logM1_sat" = Ok l1
    /\ getitem (table1_row i) "alpha_sat" = Ok alpha
    /\ 0 < sig /\ 0 < alpha.
Proof.
  intros Hi.
  do 9 (destruct i as [|i];
        [do 5 eexists; repeat (split; [reflexivity|]); cbn; split; lra|]).
  lia.
Qed.

(** X5. Constructed without a parameter dictionary and with an [int],
    [bool] or [float] threshold equal to entry [i] of the thresholds
    -18, -18.5, ..., -22, the model issues no warning, stores the
    threshold as a float and holds row [i] of Table 1, with the added
    entry ['fconc'] of 1; the row has the five keys of the model, a
    positive ['sigma_logM'] and a positive ['alpha_sat'].  An omitted
    threshold gives the model of the threshold -19.5. *)
Theorem X5_published_parameters_resolve (v : value) (x : R) (i : nat) :
  threshold_number v = Some x ->
  nth_error tabulated_thresholds i = Some x ->
  __init__ None v
  = ([], Ok (mk "Zheng07" "arXiv:0703457" (table1_row i) (Some x)))
  /\ getitem (table1_row i) "fconc" = Ok 1
  /\ (exists lmin sig l0 l1 alpha : R,
        getitem (table1_row i) "logMmin_cen" = Ok lmin
        /\ getitem (table1_row i) "sigma_logM" = Ok sig
        /\ getitem (table1_row i) "logM0_sat" = Ok l0
        /\ getitem (table1_row i) "logM1_sat" = Ok l1
        /\ getitem (table1_row i) "alpha_sat" = Ok alpha
        /\ 0 < sig /\ 0 < alpha)
  /\ snd (__init__ None PyNone) = snd (__init__ None (PyFloat (-19.5))).
Proof.
  intros Hnum Hrow.
  assert (Hi : (i < 9)%nat).
  { apply (nth_error_Some tabulated_thresholds i). now rewrite Hrow. }
  split; [|split; [|split]].
  - unfold __init__.
    rewrite (published_parameters_match _ v x i Hnum Hrow). reflexivity.
  - cbn. f_equal. lra.
  - now apply table1_row_keys.
  - unfold __init__.
    rewrite published_parameters_default.
    rewrite (published_parameters_match _ (PyFloat (-19.5)) (-19.5) 3
               eq_refl eq_refl).
    reflexivity.
Qed.

(** The integer threshold -21, entry 6 of the table, at X5. *)
Lemma X5_published_parameters_resolve_witness :
  __init__ None (PyInt (-21))
  = ([], Ok (mk "Zheng07" "arXiv:0703457" (table1_row 6) (Some (IZR (-21))))).
Proof.
  apply (X5_published_parameters_resolve (PyInt (-21)) (IZR (-21)) 6
           eq_refl eq_refl).
Defined.

End Published.

(* ------------------------------------------------------------------ *)
(** ** The shape of the mean occupations *)

(** Two more facts of the error function: it vanishes at 0 and it does
    not decrease. *)
Class SpecialFunctionsShape (SF : SpecialFunctions) : Prop :=
  { erf_at_0 : erf 0 = 0;
    erf_monotone : forall x y : R, x <= y -> erf x <= erf y }.

Lemma gauss_integral_monotone (a b : R) :
  0 <= a -> a <= b -> gauss_integral a <= gauss_integral b.
Proof.
  intros Ha Hab.
  assert (Hb : 0 <= b) by lra.
  rewrite (gauss_integral_nonneg_arg a Ha (gauss_integrable 0 a Ha)).
  rewrite (gauss_integral_nonneg_arg b Hb (gauss_integrable 0 b Hb)).
  rewrite <- (RiemannInt_P26 (gauss_integrable 0 a Ha)
                (gauss_integrable a b Hab) (gauss_integrable 0 b Hb)).
  assert (Hpos : 0 <= RiemannInt (gauss_integrable a b Hab)).
  { apply Rle_trans with (RiemannInt (RiemannInt_P14 a b 0)).
    - rewrite RiemannInt_P15. lra.
    - apply RiemannInt_P19; [exact Hab|].
      intros t _. unfold fct_cte. apply Rlt_le, gauss_pos. }
  lra.
Qed.

Lemma erf_R_monotone (x y : R) : x <= y -> erf_R x <= erf_R y.
Proof.
  intros Hxy.
  pose proof gauss_total_pos as Htot.
  assert (Hinv : 0 < / gauss_total) by now apply Rinv_0_lt_compat.
  pose proof (gauss_integral_bound x) as [Hgx _].
  pose proof (gauss_integral_bound y) as [Hgy _].
  unfold erf_R, Rdiv.
  destruct (Rle_dec 0 x) as [Hx|Hx]; destruct (Rle_dec 0 y) as [Hy|Hy].
  - pose proof (gauss_integral_monotone x y Hx Hxy). nra.
  - lra.
  - nra.
  - assert (Hmono : gauss_integral y <= gauss_integral x).
    { rewrite <- (gauss_integral_abs y), <- (gauss_integral_abs x).
      apply gauss_integral_monotone; [apply Rabs_pos|].
      rewrite !Rabs_left by lra. lra. }
    nra.
Qed.

Lemma real_special_functions_shape :
  SpecialFunctionsShape real_special_functions.
Proof. split; [exact erf_R_0 | exact erf_R_monotone]. Qed.

Section OccupationShape.
Import Zheng07_HOD_Model.
Context {SF : SpecialFunctions}.
Context {SFS : SpecialFunctionsSpec SF} {SFH : SpecialFunctionsShape SF}.

Lemma nth_map_in_range (f : R -> R) (l : list R) (i : nat) :
  (i < length l)%nat -> nth i (map f l) 0 = f (nth i l 0).
Proof.
  intros Hi.
  rewrite (nth_indep _ 0 (f 0)) by (rewrite length_map; exact Hi).
  apply (map_nth f).
Qed.

Lemma ncen_at_range (lmin sig x : R) : 0 <= ncen_at lmin sig x <= 1.
Proof.
  unfold ncen_at. pose proof (erf_range ((x - lmin) / sig)). lra.
Qed.

Lemma ncen_at_monotone (lmin sig x y : R) :
  0 < sig -> x <= y -> ncen_at lmin sig x <= ncen_at lmin sig y.
Proof.
  intros Hsig Hxy. unfold ncen_at.
  assert (Harg : (x - lmin) / sig <= (y - lmin) / sig).
  { apply Rmult_le_compat_r; [|lra].
    apply Rlt_le, Rinv_0_lt_compat, Hsig. }
  pose proof (erf_monotone _ _ Harg). lra.
Qed.

(** X6. With a positive ['sigma_logM'], the mean central occupation is
    one half at the mass ['logMmin_cen'] and does not decrease with
    mass: [logM[i] <= logM[j]] gives
    [mean_ncen(logM)[i] <= mean_ncen(logM)[j]]. *)
Theorem X6_mean_ncen_shape (self : t) (logM : list R) (lmin sig : R) :
  getitem (parameter_dict self) "logMmin_cen" = Ok lmin ->
  getitem (parameter_dict self) "sigma_logM" = Ok sig ->
  0 < sig ->
  exists ncen : list R,
    mean_ncen self (NdArray logM) = Ok ncen
    /\ forall i : nat, (i < length logM)%nat ->
         (nth i logM 0 = lmin -> nth i ncen 0 = 0.5)
         /\ forall j : nat, (j < length logM)%nat ->
              nth i logM 0 <= nth j logM 0 ->
              nth i ncen 0 <= nth j ncen 0.
Proof.
  intros Hmin Hsig Hpos.
  exists (map (ncen_at lmin sig) logM).
  split; [exact (mean_ncen_ok self logM lmin sig Hmin Hsig)|].
  intros i Hi. rewrite (nth_map_in_range _ _ i Hi). split.
  - intros ->. unfold ncen_at.
    replace ((lmin - lmin) / sig) with 0 by (field; lra).
    rewrite erf_at_0. lra.
  - intros j Hj Hle. rewrite (nth_map_in_range _ _ j Hj).
    now apply ncen_at_monotone.
Qed.

(** The satellite occupation at one mass. *)
Definition nsat_at (lmin sig l0 l1 alpha x : R) : R :=
  if Np.Rgtb (Np.pow10 x - Np.pow10 l0) 0
  then ncen_at lmin sig x
       * Rpower ((Np.pow10 x - Np.pow10 l0) / Np.pow10 l1) alpha
  else 0.

Lemma nsat_at_nonneg (lmin sig l0 l1 alpha x : R) :
  0 <= nsat_at lmin sig l0 l1 alpha x.
Proof.
  unfold nsat_at. destruct (Np.Rgtb _ 0); [|lra].
  apply Rmult_le_pos; [apply ncen_at_range | apply Rlt_le, exp_pos].
Qed.

Lemma nsat_at_monotone (lmin sig l0 l1 alpha x y : R) :
  0 < sig -> 0 <= alpha -> x <= y ->
  nsat_at lmin sig l0 l1 alpha x <= nsat_at lmin sig l0 l1 alpha y.
Proof.
  intros Hsig Halpha Hxy.
  pose proof (nsat_at_nonneg lmin sig l0 l1 alpha y) as Hy.
  unfold nsat_at in *. unfold Np.Rgtb, Np.pow10 in *.
  assert (Hmass : Rpower 10 x <= Rpower 10 y) by (apply Rle_Rpower; lra).
  assert (HM1 : 0 < Rpower 10 l1) by apply exp_pos.
  destruct (Rlt_dec 0 (Rpower 10 x - Rpower 10 l0)) as [Hx|Hx];
    [|exact Hy].
  destruct (Rlt_dec 0 (Rpower 10 y - Rpower 10 l0)) as [Hy'|Hy'];
    [|lra].
  apply Rmult_le_compat.
  - apply ncen_at_range.
  - apply Rlt_le, exp_pos.
  - now apply ncen_at_monotone.
  - apply Rle_Rpower_l; [exact Halpha|]. split.
    + apply Rdiv_lt_0_compat; lra.
    + apply Rmult_le_compat_r; [|lra].
      apply Rlt_le, Rinv_0_lt_compat, HM1.
Qed.

(** X7. Every element of [mean_nsat] is at least 0, and where the mass
    exceeds [M0] it is at most the power law
    [((10**logM[i] - M0)/M1)**alpha_sat]: the factor [mean_ncen] only
    lowers the satellite occupation.  With a positive ['sigma_logM'] and
    an ['alpha_sat'] that is not negative, the occupation does not
    decrease with mass. *)
Theorem X7_mean_nsat_shape
  (self : t) (logM : list R) (lmin sig l0 l1 alpha : R) :
  getitem (parameter_dict self) "logMmin_cen" = Ok lmin ->
  getitem (parameter_dict self) "sigma_logM" = Ok sig ->
  getitem (parameter_dict self) "logM0_sat" = Ok l0 ->
  getitem (parameter_dict self) "logM1_sat" = Ok l1 ->
  getitem (parameter_dict self) "alpha_sat" = Ok alpha ->
  exists nsat : list R,
    mean_nsat self (NdArray logM) = Ok nsat
    /\ forall i : nat, (i < length logM)%nat ->
         0 <= nth i nsat 0
         /\ (0 < Rpower 10 (nth i logM 0) - Rpower 10 l0 ->
             nth i nsat 0
             <= Rpower ((Rpower 10 (nth i logM 0) - Rpower 10 l0)
                        / Rpower 10 l1) alpha)
         /\ (0 < sig -> 0 <= alpha ->
             forall j : nat, (j < length logM)%nat ->
               nth i logM 0 <= nth j logM 0 ->
               nth i nsat 0 <= nth j nsat 0).
Proof.
  intros Hmin Hsig H0 H1 Ha.
  exists (map (nsat_at lmin sig l0 l1 alpha) logM).
  split; [exact (mean_nsat_ok self logM lmin sig l0 l1 alpha
                   Hmin Hsig H0 H1 Ha)|].
  intros i Hi. rewrite (nth_map_in_range _ _ i Hi).
  split; [apply nsat_at_nonneg|]. split.
  - intros Hpos. unfold nsat_at, Np.Rgtb, Np.pow10.
    destruct (Rlt_dec 0 (Rpower 10 (nth i logM 0) - Rpower 10 l0));
      [|contradiction].
    pose proof (ncen_at_range lmin sig (nth i logM 0)) as Hc.
    assert (Hp : 0 < Rpower ((Rpower 10 (nth i logM 0) - Rpower 10 l0)
                             / Rpower 10 l1) alpha) by apply exp_pos.
    nra.
  - intros Hs Hal j Hj Hle. rewrite (nth_map_in_range _ _ j Hj).
    now apply nsat_at_monotone.
Qed.

End OccupationShape.

(** The published model of threshold -19.5 and the masses
    [logM = [11.75; 13]] at X6. *)
Lemma X6_mean_ncen_shape_witness :
  exists ncen : list R,
    @Zheng07_HOD_Model.mean_ncen real_special_functions
      (Zheng07_HOD_Model.mk "Zheng07" "arXiv:0703457" parameters_19_5
         (Some (-19.5)))
      (NdArray [11.75; 13]) = Ok ncen
    /\ nth 0 ncen 0 = 0.5 /\ nth 0 ncen 0 <= nth 1 ncen 0.
Proof.
  destruct (@X6_mean_ncen_shape real_special_functions
              real_special_functions_shape
              (Zheng07_HOD_Model.mk "Zheng07" "arXiv:0703457"
                 parameters_19_5 (Some (-19.5)))
              [11.75; 13] 11.75 0.28 eq_refl eq_refl ltac:(lra))
    as (ncen & Hncen & Hshape).
  exists ncen. split; [exact Hncen|].
  destruct (Hshape 0%nat ltac:(cbn; lia)) as [Hhalf Hmono].
  split; [apply Hhalf; reflexivity|].
  apply (Hmono 1%nat); cbn; [lia | lra].
Defined.

(** The same model and the masses [logM = [12; 13]] at X7. *)
Lemma X7_mean_nsat_shape_witness :
  exists nsat : list R,
    @Zheng07_HOD_Model.mean_nsat real_special_functions
      (Zheng07_HOD_Model.mk "Zheng07" "arXiv:0703457" parameters_19_5
         (Some (-19.5)))
      (NdArray [12; 13]) = Ok nsat
    /\ 0 <= nth 0 nsat 0 /\ nth 0 nsat 0 <= nth 1 nsat 0.
Proof.
  destruct (@X7_mean_nsat_shape real_special_functions
              real_special_functions_spec real_special_functions_shape
              (Zheng07_HOD_Model.mk "Zheng07" "arXiv:0703457"
                 parameters_19_5 (Some (-19.5)))
              [12; 13] 11.75 0.28 11.69 13.01 1.06
              eq_refl eq_refl eq_refl eq_refl eq_refl)
    as (nsat & Hnsat & Hshape).
  exists nsat. split; [exact Hnsat|].
  destruct (Hshape 0%nat ltac:(cbn; lia)) as (Hpos & _ & Hmono).
  split; [exact Hpos|].
  apply (Hmono ltac:(lra) ltac:(lra) 1%nat); cbn; [lia | lra].
Defined.

(* ------------------------------------------------------------------ *)
(** ** Published models in use *)

Section PublishedInUse.
Import Zheng07_HOD_Model.
Context {SF : SpecialFunctions}.
Context {SFS : SpecialFunctionsSpec SF} {SFH : SpecialFunctionsShape SF}.

(** X8. A model constructed from any threshold of the table answers
    every array of masses: [mean_ncen] and [mean_nsat] return arrays of
    the length of the argument, the central occupation lies in [0,1],
    the satellite occupation is not negative, and neither decreases with
    mass. *)
Theorem X8_published_models_answer (v : value) (x : R) :
  threshold_number v = Some x ->
  In x tabulated_thresholds ->
  exists self : t,
    __init__ None v = ([], Ok self)
    /\ forall logM : list R,
       exists ncen nsat : list R,
         mean_ncen self (NdArray logM) = Ok ncen
         /\ mean_nsat self (NdArray logM) = Ok nsat
         /\ length ncen = length logM /\ length nsat = length logM
         /\ forall i : nat, (i < length logM)%nat ->
              0 <= nth i ncen 0 <= 1
              /\ 0 <= nth i nsat 0
              /\ forall j : nat, (j < length logM)%nat ->
                   nth i logM 0 <= nth j logM 0 ->
                   nth i ncen 0 <= nth j ncen 0
                   /\ nth i nsat 0 <= nth j nsat 0.
Proof.
  intros Hnum Hin.
  destruct (In_nth_error _ _ Hin) as [i Hrow].
  assert (Hi : (i < 9)%nat).
  { apply (nth_error_Some tabulated_thresholds i). now rewrite Hrow. }
  destruct (table1_row_keys i Hi)
    as (lmin & sig & l0 & l1 & alpha & Hmin & Hsig & H0 & H1 & Ha
        & Hspos & Hapos).
  exists (mk "Zheng07" "arXiv:0703457" (table1_row i) (Some x)).
  split.
  - unfold __init__.
    rewrite (published_parameters_match _ v x i Hnum Hrow). reflexivity.
  - intros logM.
    exists (map (ncen_at lmin sig) logM),
           (map (nsat_at lmin sig l0 l1 alpha) logM).
    split; [exact (mean_ncen_ok
                     (mk "Zheng07" "arXiv:0703457" (table1_row i) (Some x))
                     logM lmin sig Hmin Hsig)|].
    split; [exact (mean_nsat_ok
                     (mk "Zheng07" "arXiv:0703457" (table1_row i) (Some x))
                     logM lmin sig l0 l1 alpha Hmin Hsig H0 H1 Ha)|].
    split; [apply length_map|]. split; [apply length_map|].
    intros k Hk. rewrite !(nth_map_in_range _ _ k Hk).
    split; [apply ncen_at_range|].
    split; [apply nsat_at_nonneg|].
    intros j Hj Hle. rewrite !(nth_map_in_range _ _ j Hj). split.
    + now apply ncen_at_monotone.
    + apply nsat_at_monotone; [exact Hspos | lra | exact Hle].
Qed.

End PublishedInUse.

Lemma twenty_tabulated : In (-20) tabulated_thresholds.
Proof. unfold tabulated_thresholds. cbn [In]. tauto. Qed.

(** The threshold -20.0 and the masses [logM = [12; 14]] at X8. *)
Lemma X8_published_models_answer_witness :
  exists (self : Zheng07_HOD_Model.t) (ncen : list R),
    Zheng07_HOD_Model.__init__ None (PyFloat (-20)) = ([], Ok self)
    /\ @Zheng07_HOD_Model.mean_ncen real_special_functions self
         (NdArray [12; 14]) = Ok ncen
    /\ nth 0 ncen 0 <= nth 1 ncen 0.
Proof.
  destruct (@X8_published_models_answer real_special_functions
              real_special_functions_spec real_special_functions_shape
              (PyFloat (-20)) (-20) eq_refl twenty_tabulated)
    as (self & Hinit & Hall).
  destruct (Hall [12; 14]) as (ncen & nsat & Hcen & _ & _ & _ & Hnth).
  exists self, ncen. split; [exact Hinit|]. split; [exact Hcen|].
  destruct (Hnth 0%nat ltac:(cbn; lia)) as (_ & _ & Hmono).
  apply (Hmono 1%nat); cbn; [lia | lra].
Defined.

(* ------------------------------------------------------------------ *)
(** ** The quenching model in use *)

Section QuenchingInUse.
Import vdB03_Quenching_Model.

Lemma power_sum_nil (n : nat) (x : R) : power_sum n [] x = 0.
Proof. reflexivity. Qed.

Lemma clamp_0 : clamp 0 = 0.
Proof. apply clamp_spec. lra. Qed.

(** X9. [quenching_polynomial] reads ['logM_abcissa'] although it does
    not use it: on a dictionary without that key the call, and with it
    [mean_quenched_fraction_centrals] and
    [mean_quenched_fraction_satellites], raises [KeyError], whatever the
    masses and coefficients.  On a dictionary with the key, an empty
    sequence of coefficients gives the fraction 0 at every mass. *)
Theorem X9_quenching_polynomial_edges (self : t) (logM : list R) :
  (forall (e : exn) (coefficients : list R),
     getitem (parameter_dict self) "logM_abcissa" = Raise e ->
     quenching_polynomial self logM coefficients
     = Raise (KeyError "logM_abcissa")
     /\ mean_quenched_fraction_centrals self logM
        = Raise (KeyError "logM_abcissa")
     /\ mean_quenched_fraction_satellites self logM
        = Raise (KeyError "logM_abcissa"))
  /\ (forall abcissa : list R,
        getitem (parameter_dict self) "logM_abcissa" = Ok abcissa ->
        quenching_polynomial self logM [] = Ok (Np.zeros (length logM))).
Proof.
  split.
  - intros e coefficients Hkey.
    pose proof (getitem_raise _ _ _ Hkey) as ->.
    unfold mean_quenched_fraction_centrals,
      mean_quenched_fraction_satellites, quenching_polynomial.
    rewrite Hkey. cbn [bind]. auto.
  - intros abcissa Hkey.
    rewrite (quenching_polynomial_ok self logM [] abcissa Hkey).
    rewrite zeros_map. f_equal. apply map_ext. intros x.
    rewrite power_sum_nil. apply clamp_0.
Qed.

(** A model whose dictionary has the ordinates only, at X9. *)
Lemma X9_quenching_polynomial_edges_witness :
  mean_quenched_fraction_centrals
    (mk "vdB03" "arXiv:0210495v3" [("central_ordinates", [0.25; 0.75])]
        [-20; 2] [-20; 2])
    [12; 13]
  = Raise (KeyError "logM_abcissa").
Proof.
  destruct (X9_quenching_polynomial_edges
              (mk "vdB03" "arXiv:0210495v3"
                  [("central_ordinates", [0.25; 0.75])] [-20; 2] [-20; 2])
              [12; 13]) as [Hmissing _].
  apply (Hmissing (KeyError "logM_abcissa") [] eq_refl).
Defined.

Section WithSolver.
Context {LA : LinearAlgebra} {LAS : LinearAlgebraSpec LA}.

(** The fit of distinct abscissas returns coefficients whose polynomial
    has the ordinates as its values at the abscissas. *)
Lemma fit_values (abcissa ordinates : list R) :
  length ordinates = length abcissa ->
  NoDup abcissa ->
  exists coeff : list R,
    solve_for_quenching_polynomial_coefficients abcissa ordinates
    = Ok coeff
    /\ length coeff = length abcissa
    /\ map (power_sum 0 coeff) abcissa = ordinates.
Proof.
  intros Hlen Hnd.
  rewrite solve_for_quenching_polynomial_coefficients_matrix.
  destruct (solve_regular (vandermonde abcissa) ordinates)
    as (coeff & Hsolve & Hcoeff & Hsol).
  - rewrite Hlen. apply vandermonde_square.
  - rewrite Hlen. now apply vandermonde_regular.
  - exists coeff. split; [exact Hsolve|]. split; [congruence|].
    rewrite matvec_vandermonde in Hsol by congruence. exact Hsol.
Qed.

Lemma map_clamp_unit (l : list R) :
  Forall (fun v => 0 <= v <= 1) l -> map clamp l = l.
Proof.
  induction 1 as [|v l Hv Hl IH]; cbn; [reflexivity|].
  rewrite IH. f_equal. now apply clamp_spec.
Qed.

(** X10. A model constructed from control points with pairwise distinct
    abscissas reproduces its control points: evaluated at the abscissas,
    [mean_quenched_fraction_centrals] returns the central ordinates and
    [mean_quenched_fraction_satellites] the satellite ordinates, each
    clamped into [0,1], hence unchanged when it lies in [0,1]. *)
Theorem X10_quenching_model_reproduces_control_points
  {D : Defaults} (d : dict (list R))
  (abcissa central_ordinates satellite_ordinates : list R) :
  getitem d "logM_abcissa" = Ok abcissa ->
  getitem d "central_ordinates" = Ok central_ordinates ->
  getitem d "satellite_ordinates" = Ok satellite_ordinates ->
  length central_ordinates = length abcissa ->
  length satellite_ordinates = length abcissa ->
  NoDup abcissa ->
  exists self : t,
    __init__ (Some d) = Ok self
    /\ parameter_dict self = d
    /\ length (central_quenching_polynomial_coefficients self)
       = length abcissa
    /\ length (satellite_quenching_polynomial_coefficients self)
       = length abcissa
    /\ mean_quenched_fraction_centrals self abcissa
       = Ok (map clamp central_ordinates)
    /\ mean_quenched_fraction_satellites self abcissa
       = Ok (map clamp satellite_ordinates)
    /\ (Forall (fun v => 0 <= v <= 1) central_ordinates ->
        mean_quenched_fraction_centrals self abcissa
        = Ok central_ordinates)
    /\ (Forall (fun v => 0 <= v <= 1) satellite_ordinates ->
        mean_quenched_fraction_satellites self abcissa
        = Ok satellite_ordinates).
Proof.
  intros Habc Hcen Hsat Hlc Hls Hnd.
  destruct (fit_values abcissa central_ordinates Hlc Hnd)
    as (cc & Hcc & Hcl & Hcv).
  destruct (fit_values abcissa satellite_ordinates Hls Hnd)
    as (sc & Hsc & Hsl & Hsv).
  exists (mk "vdB03" "arXiv:0210495v3" d cc sc).
  assert (Hc : mean_quenched_fraction_centrals
                 (mk "vdB03" "arXiv:0210495v3" d cc sc) abcissa
               = Ok (map clamp central_ordinates)).
  { unfold mean_quenched_fraction_centrals.
    rewrite (quenching_polynomial_ok
               (mk "vdB03" "arXiv:0210495v3" d cc sc) abcissa _ abcissa Habc).
    cbn [central_quenching_polynomial_coefficients].
    now rewrite <- Hcv, List.map_map. }
  assert (Hs : mean_quenched_fraction_satellites
                 (mk "vdB03" "arXiv:0210495v3" d cc sc) abcissa
               = Ok (map clamp satellite_ordinates)).
  { unfold mean_quenched_fraction_satellites.
    rewrite (quenching_polynomial_ok
               (mk "vdB03" "arXiv:0210495v3" d cc sc) abcissa _ abcissa Habc).
    cbn [satellite_quenching_polynomial_coefficients].
    now rewrite <- Hsv, List.map_map. }
  split.
  { unfold __init__. rewrite Habc, Hcen. cbn [bind]. rewrite Hcc.
    cbn [bind]. rewrite Hsat. cbn [bind]. rewrite Hsc. reflexivity. }
  split; [reflexivity|]. split; [exact Hcl|]. split; [exact Hsl|].
  split; [exact Hc|]. split; [exact Hs|]. split.
  - intros Hunit. now rewrite Hc, map_clamp_unit.
  - intros Hunit. now rewrite Hs, map_clamp_unit.
Qed.

(** X11. The coefficients returned for distinct abscissas are the only
    ones of their number that pass through the control points: any [N]
    coefficients whose polynomial takes the value [quenched_fractions[i]]
    at every [logM_abcissa[i]] are the returned ones. *)
Theorem X11_fit_is_unique (logM_abcissa quenched_fractions other : list R) :
  length quenched_fractions = length logM_abcissa ->
  NoDup logM_abcissa ->
  length other = length logM_abcissa ->
  (forall i : nat, (i < length logM_abcissa)%nat ->
     power_sum 0 other (nth i logM_abcissa 0) = nth i quenched_fractions 0) ->
  solve_for_quenching_polynomial_coefficients
    logM_abcissa quenched_fractions = Ok other.
Proof.
  intros Hlen Hnd Hother Hpts.
  destruct (fit_values logM_abcissa quenched_fractions Hlen Hnd)
    as (coeff & Hsolve & Hcoeff & Hvals).
  rewrite Hsolve. f_equal.
  apply (interpolation_unique logM_abcissa); try assumption.
  change (peval coeff) with (power_sum 0 coeff).
  change (peval other) with (power_sum 0 other).
  rewrite Hvals.
  apply (nth_ext _ _ 0 0).
  - now rewrite length_map.
  - intros i Hi. rewrite Hlen in Hi.
    rewrite <- (Hpts i Hi). symmetry.
    now apply nth_map_in_range.
Qed.

End WithSolver.

(** X12. The constructor fails in the order of its steps: without
    ['logM_abcissa'] it raises [KeyError] for that key; with it and
    without ['central_ordinates'], for that one; an exception of the
    central fit ends the constructor before the satellite ordinates are
    looked up; and after a central fit that succeeds, a dictionary
    without ['satellite_ordinates'] raises [KeyError] for that key. *)
Theorem X12_quenching_constructor_errors
  {LA : LinearAlgebra} {D : Defaults} (d : dict (list R)) :
  (forall e : exn,
     getitem d "logM_abcissa" = Raise e ->
     __init__ (Some d) = Raise (KeyError "logM_abcissa"))
  /\ (forall (abcissa : list R) (e : exn),
        getitem d "logM_abcissa" = Ok abcissa ->
        getitem d "central_ordinates" = Raise e ->
        __init__ (Some d) = Raise (KeyError "central_ordinates"))
  /\ (forall (abcissa ordinates : list R) (e : exn),
        getitem d "logM_abcissa" = Ok abcissa ->
        getitem d "central_ordinates" = Ok ordinates ->
        solve_for_quenching_polynomial_coefficients abcissa ordinates
        = Raise e ->
        __init__ (Some d) = Raise e)
  /\ (forall (abcissa ordinates coeff : list R) (e : exn),
        getitem d "logM_abcissa" = Ok abcissa ->
        getitem d "central_ordinates" = Ok ordinates ->
        solve_for_quenching_polynomial_coefficients abcissa ordinates
        = Ok coeff ->
        getitem d "satellite_ordinates" = Raise e ->
        __init__ (Some d) = Raise (KeyError "satellite_ordinates")).
Proof.
  unfold __init__. repeat split.
  - intros e H. pose proof (getitem_raise _ _ _ H) as ->.
    now rewrite H.
  - intros abcissa e Ha H. pose proof (getitem_raise _ _ _ H) as ->.
    now rewrite Ha, H.
  - intros abcissa ordinates e Ha Hc Hfit.
    rewrite Ha, Hc. cbn [bind]. now rewrite Hfit.
  - intros abcissa ordinates coeff e Ha Hc Hfit H.
    pose proof (getitem_raise _ _ _ H) as ->.
    rewrite Ha, Hc. cbn [bind]. rewrite Hfit. cbn [bind]. now rewrite H.
Qed.

End QuenchingInUse.

(** The default control points of the small grid at X10, with the exact
    solver. *)
Lemma X10_quenching_model_reproduces_control_points_witness :
  exists self : vdB03_Quenching_Model.t,
    @vdB03_Quenching_Model.__init__ exact_linear_algebra small_grid_defaults
      (Some [("logM_abcissa", [12; 13]);
             ("central_ordinates", [0.25; 0.75]);
             ("satellite_ordinates", [0.5; 0.75])]) = Ok self
    /\ vdB03_Quenching_Model.mean_quenched_fraction_centrals self [12; 13]
       = Ok [0.25; 0.75].
Proof.
  destruct (@X10_quenching_model_reproduces_control_points
              exact_linear_algebra exact_linear_algebra_spec
              small_grid_defaults
              [("logM_abcissa", [12; 13]);
               ("central_ordinates", [0.25; 0.75]);
               ("satellite_ordinates", [0.5; 0.75])]
              [12; 13] [0.25; 0.75] [0.5; 0.75]
              eq_refl eq_refl eq_refl eq_refl eq_refl NoDup_12_13)
    as (self & Hinit & _ & _ & _ & _ & _ & Hcen & _).
  exists self. split; [exact Hinit|].
  apply Hcen. repeat constructor; lra.
Defined.

(** The line through (12, 0.25) and (13, 0.75) at X11, with the exact
    solver. *)
Lemma X11_fit_is_unique_witness :
  @vdB03_Quenching_Model.solve_for_quenching_polynomial_coefficients
    exact_linear_algebra [12; 13] [0.25; 0.75] = Ok [-5.75; 0.5].
Proof.
  apply (@X11_fit_is_unique exact_linear_algebra exact_linear_algebra_spec
           [12; 13] [0.25; 0.75] [-5.75; 0.5] eq_refl NoDup_12_13 eq_refl).
  intros i Hi. cbn [length] in Hi.
  destruct i as [|[|i]]; cbn; [lra | lra | lia].
Defined.

(** A dictionary with the abscissas only at X12, with the exact solver. *)
Lemma X12_quenching_constructor_errors_witness :
  @vdB03_Quenching_Model.__init__ exact_linear_algebra small_grid_defaults
    (Some [("logM_abcissa", [12; 13])])
  = Raise (KeyError "central_ordinates").
Proof.
  destruct (@X12_quenching_constructor_errors exact_linear_algebra
              small_grid_defaults [("logM_abcissa", [12; 13])])
    as (_ & Hcen & _).
  apply (Hcen [12; 13] (KeyError "central_ordinates")); reflexivity.
Defined.

(* ------------------------------------------------------------------ *)
(** ** The NFW profile *)

Section Profile.
Import NFWProfile.

Lemma derivable_pt_lim_enclosed (x : R) :
  0 <= x -> derivable_pt_lim enclosed x (x / ((1 + x) * (1 + x))).
Proof.
  intros Hx.
  assert (H1 : derivable_pt_lim (fun t => 1 + t) x 1).
  { pose proof (derivable_pt_lim_plus (fct_cte 1) id x 0 1
                  (derivable_pt_lim_const 1 x) (derivable_pt_lim_id x))
      as H.
    replace (0 + 1) with 1 in H by lra. exact H. }
  assert (Hln : derivable_pt_lim (fun t => ln (1 + t)) x (/ (1 + x) * 1)).
  { apply (derivable_pt_lim_comp (fun t => 1 + t) ln); [exact H1|].
    apply derivable_pt_lim_ln. lra. }
  assert (Hq : derivable_pt_lim (fun t => t / (1 + t)) x
                 ((1 * (1 + x) - 1 * x) / Rsqr (1 + x))).
  { apply (derivable_pt_lim_div id (fun t => 1 + t)).
    - apply derivable_pt_lim_id.
    - exact H1.
    - lra. }
  replace (x / ((1 + x) * (1 + x)))
    with (/ (1 + x) * 1 - (1 * (1 + x) - 1 * x) / Rsqr (1 + x))
    by (unfold Rsqr; field; lra).
  apply (derivable_pt_lim_minus (fun t => ln (1 + t)) (fun t => t / (1 + t)));
    assumption.
Qed.


Lemma derivable_pt_lim_cumulative (r c : R) :
  0 < r -> 0 < c ->
  derivable_pt_lim (fun t => cumulative_mass_PDF t c) r
    (c * c * r / ((1 + c * r) * (1 + c * r)) * g c).
Proof.
  intros Hr Hc.
  assert (Hrc : 0 < r * c) by now apply Rmult_lt_0_compat.
  replace (fun t => cumulative_mass_PDF t c)
    with (fun t => enclosed (t * c) * / enclosed c)
    by (apply functional_extensionality; intros t;
        now rewrite cumulative_mass_PDF_enclosed).
  assert (Hin : derivable_pt_lim (fun t => t * c) r (1 * c + r * 0)).
  { apply (derivable_pt_lim_mult id (fct_cte c)).
    - apply derivable_pt_lim_id.
    - apply derivable_pt_lim_const. }
  assert (Hcomp : derivable_pt_lim (fun t => enclosed (t * c)) r
                    (r * c / ((1 + r * c) * (1 + r * c)) * (1 * c + r * 0))).
  { apply (derivable_pt_lim_comp (fun t => t * c) enclosed); [exact Hin|].
    apply derivable_pt_lim_enclosed. lra. }
  pose proof (derivable_pt_lim_mult (fun t => enclosed (t * c))
                (fct_cte (/ enclosed c)) r _ 0 Hcomp
                (derivable_pt_lim_const (/ enclosed c) r)) as H.
  rewrite g_enclosed.
  replace (c * c * r / ((1 + c * r) * (1 + c * r)) * / enclosed c)
    with (r * c / ((1 + r * c) * (1 + r * c)) * (1 * c + r * 0)
          * fct_cte (/ enclosed c) r + enclosed (r * c) * 0)
    by (unfold fct_cte; field; split; [apply Rgt_not_eq, enclosed_pos, Hc | nra]).
  exact H.
Qed.

Lemma g_decreasing (x y : R) : 0 < x -> x < y -> g y < g x.
Proof.
  intros Hx Hxy. rewrite !g_enclosed.
  pose proof (enclosed_pos x Hx) as Hex.
  pose proof (enclosed_increasing x y (Rlt_le _ _ Hx) Hxy) as Hinc.
  apply Rinv_lt_contravar; [|exact Hinc].
  apply Rmult_lt_0_compat; lra.
Qed.

Lemma rho_s_pos (self : t) (c : R) :
  0 < delta_vir self -> 0 < cosmic_matter_density self -> 0 < c ->
  0 < rho_s self c.
Proof.
  intros Hd Hm Hc. unfold rho_s.
  pose proof (g_pos c Hc) as Hg.
  assert (H3 : 0 < delta_vir self / 3) by lra.
  apply Rmult_lt_0_compat; [|exact Hm].
  apply Rmult_lt_0_compat; [|exact Hg].
  do 3 (apply Rmult_lt_0_compat; [|exact Hc]).
  exact H3.
Qed.

Lemma density_profile_pos (self : t) (r c : R) :
  0 < delta_vir self -> 0 < cosmic_matter_density self -> 0 < c ->
  0 < r -> 0 < density_profile self r c.
Proof.
  intros Hd Hm Hc Hr. unfold density_profile.
  assert (Hcr : 0 < c * r) by now apply Rmult_lt_0_compat.
  apply Rdiv_lt_0_compat; [now apply rho_s_pos|].
  repeat apply Rmult_lt_0_compat; lra.
Qed.

Lemma density_profile_decreasing (self : t) (r1 r2 c : R) :
  0 < delta_vir self -> 0 < cosmic_matter_density self -> 0 < c ->
  0 < r1 -> r1 < r2 ->
  density_profile self r2 c < density_profile self r1 c.
Proof.
  intros Hd Hm Hc H1 H12.
  pose proof (rho_s_pos self c Hd Hm Hc) as Hrho.
  assert (Hden : forall r, 0 < r ->
            0 < c * r * (1.0 + c * r) * (1.0 + c * r)).
  { intros r Hr. assert (0 < c * r) by now apply Rmult_lt_0_compat.
    repeat apply Rmult_lt_0_compat; lra. }
  unfold density_profile.
  apply Rmult_lt_compat_l; [exact Hrho|].
  pose proof (Hden r1 H1) as Hd1.
  assert (Hcr : c * r1 < c * r2) by now apply Rmult_lt_compat_l.
  assert (Hcr1 : 0 < c * r1) by now apply Rmult_lt_0_compat.
  apply Rinv_lt_contravar.
  - apply Rmult_lt_0_compat; [exact Hd1 | apply Hden; lra].
  - assert (Hs : (1.0 + c * r1) * (1.0 + c * r1)
                 < (1.0 + c * r2) * (1.0 + c * r2)) by nra.
    apply Rle_lt_trans
      with (c * r1 * ((1.0 + c * r2) * (1.0 + c * r2))); [nra|].
    rewrite !Rmult_assoc.
    apply Rmult_lt_compat_l; [lra|].
    apply Rmult_lt_compat_r; [nra | lra].
Qed.

(** X13. For a model of positive overdensity and positive cosmic matter
    density and a concentration [c > 0]: [g] is positive and decreases
    strictly on the positive reals; the normalisation [rho_s(c)] is
    positive; and [density_profile(r, c)] is positive and decreases
    strictly with the radius [r > 0]. *)
Theorem X13_density_profile_decreasing (self : t) (c : R) :
  0 < delta_vir self -> 0 < cosmic_matter_density self -> 0 < c ->
  (forall x y : R, 0 < x -> x < y -> 0 < g y < g x)
  /\ 0 < rho_s self c
  /\ (forall r : R, 0 < r -> 0 < density_profile self r c)
  /\ (forall r1 r2 : R, 0 < r1 -> r1 < r2 ->
        density_profile self r2 c < density_profile self r1 c).
Proof.
  intros Hd Hm Hc.
  split; [|split; [now apply rho_s_pos|split]].
  - intros x y Hx Hxy. split; [apply g_pos; lra | now apply g_decreasing].
  - intros r Hr. now apply density_profile_pos.
  - intros r1 r2 H1 H12. now apply density_profile_decreasing.
Qed.

(** X14. The density is the radial derivative of the cumulative mass:
    at every radius [r > 0] and concentration [c > 0] the derivative of
    [cumulative_mass_PDF(r, c)] with respect to [r] is
    [3 * r**2 * density_profile(r, c)] divided by
    [delta_vir * cosmic_matter_density], the mean density inside the
    halo boundary. *)
Theorem X14_density_is_derivative_of_cumulative_mass
  (self : t) (r c : R) :
  delta_vir self <> 0 -> cosmic_matter_density self <> 0 ->
  0 < r -> 0 < c ->
  derivable_pt_lim (fun t => cumulative_mass_PDF t c) r
    (3 * r * r * density_profile self r c
     / (delta_vir self * cosmic_matter_density self)).
Proof.
  intros Hd Hm Hr Hc.
  assert (Hcr : 0 < c * r) by now apply Rmult_lt_0_compat.
  replace (3 * r * r * density_profile self r c
           / (delta_vir self * cosmic_matter_density self))
    with (c * c * r / ((1 + c * r) * (1 + c * r)) * g c).
  - now apply derivable_pt_lim_cumulative.
  - unfold density_profile, rho_s.
    replace 1.0 with 1 by lra. field.
    repeat split; lra.
Qed.

Lemma enclosed_le_sqr (x : R) : 0 < x -> enclosed x <= x * x.
Proof.
  intros Hx. unfold enclosed.
  assert (Hln : ln (1 + x) <= x).
  { destruct (exp_ineq1_le x) as [Hlt|Heq].
    - apply Rlt_le. rewrite <- (ln_exp x) at 2.
      apply ln_increasing; lra.
    - rewrite Heq, ln_exp. lra. }
  assert (Hfrac : x - x * x <= x / (1 + x)).
  { apply (Rmult_le_reg_r (1 + x)); [lra|].
    unfold Rdiv. rewrite Rmult_assoc, Rinv_l by lra. nra. }
  lra.
Qed.

(** X15. For a concentration [c > 0], [cumulative_mass_PDF] maps the
    radii of (0,1] into (0,1]; two positive radii with the same value
    are equal, so the profile can be inverted; and the value tends to 0
    with the radius: below every bound [eps > 0] for all radii that are
    small enough. *)
Theorem X15_cumulative_mass_PDF_invertible (c : R) :
  0 < c ->
  (forall r : R, 0 < r <= 1 -> 0 < cumulative_mass_PDF r c <= 1)
  /\ (forall r1 r2 : R, 0 < r1 -> 0 < r2 ->
        cumulative_mass_PDF r1 c = cumulative_mass_PDF r2 c -> r1 = r2)
  /\ (forall eps : R, 0 < eps ->
        exists delta : R, 0 < delta /\
          forall r : R, 0 < r < delta -> cumulative_mass_PDF r c < eps).
Proof.
  intros Hc.
  pose proof (enclosed_pos c Hc) as Hnorm.
  assert (Hinv : 0 < / enclosed c) by now apply Rinv_0_lt_compat.
  assert (Hmono : forall r1 r2 : R, 0 < r1 -> r1 < r2 ->
            cumulative_mass_PDF r1 c < cumulative_mass_PDF r2 c).
  { intros r1 r2 H1 H12. rewrite !cumulative_mass_PDF_enclosed.
    apply Rmult_lt_compat_r; [exact Hinv|].
    apply enclosed_increasing.
    - apply Rlt_le, Rmult_lt_0_compat; lra.
    - apply Rmult_lt_compat_r; lra. }
  assert (Hone : cumulative_mass_PDF 1 c = 1).
  { rewrite cumulative_mass_PDF_enclosed, Rmult_1_l.
    apply Rdiv_diag. lra. }
  split; [|split].
  - intros r [Hr Hr1]. split.
    + rewrite cumulative_mass_PDF_enclosed.
      apply Rdiv_lt_0_compat; [|exact Hnorm].
      apply enclosed_pos, Rmult_lt_0_compat; lra.
    + destruct Hr1 as [Hlt|Heq]; [|rewrite Heq; lra].
      rewrite <- Hone. apply Rlt_le, Hmono; lra.
  - intros r1 r2 H1 H2 Heq.
    destruct (Rtotal_order r1 r2) as [Hlt|[Heq'|Hgt]]; [|exact Heq'|].
    + pose proof (Hmono r1 r2 H1 Hlt). lra.
    + pose proof (Hmono r2 r1 H2 Hgt). lra.
  - intros eps Heps.
    set (bound := eps * enclosed c / (c * c)).
    assert (Hbound : 0 < bound).
    { unfold bound. apply Rdiv_lt_0_compat; nra. }
    exists (Rmin 1 bound). split; [apply Rmin_pos; lra|].
    intros r [Hr Hsmall].
    pose proof (Rmin_l 1 bound). pose proof (Rmin_r 1 bound).
    assert (Hrc : 0 < r * c) by now apply Rmult_lt_0_compat.
    pose proof (enclosed_le_sqr (r * c) Hrc) as Hsq.
    rewrite cumulative_mass_PDF_enclosed.
    apply (Rmult_lt_reg_r (enclosed c)); [exact Hnorm|].
    unfold Rdiv. rewrite Rmult_assoc, Rinv_l by lra.
    assert (Hr2 : r * r <= r) by nra.
    assert (Hcc : 0 < c * c) by nra.
    assert (Hrb : r * (c * c) < eps * enclosed c).
    { assert (Hlt : r < bound) by lra.
      apply (Rmult_lt_compat_r (c * c)) in Hlt; [|exact Hcc].
      unfold bound, Rdiv in Hlt.
      rewrite Rmult_assoc, Rinv_l in Hlt by lra. lra. }
    nra.
Qed.

End Profile.

Definition flat_profile : NFWProfile.t :=
  NFWProfile.mk
    (HaloProfileModel.__init__ (PyInt 200) flat_cosmology (PyFloat 1.5))
    ["arXiv:9611107"] None None.

Lemma flat_profile_delta_vir : 0 < NFWProfile.delta_vir flat_profile.
Proof. cbn. lra. Qed.

Lemma flat_profile_density :
  0 < NFWProfile.cosmic_matter_density flat_profile.
Proof.
  cbn. apply Rmult_lt_0_compat; [|lra].
  apply Rdiv_lt_0_compat; [lra | nra].
Qed.

(** The profile over the flat cosmology, the concentration 5 and the
    radii 1/4 and 1/2 at X13. *)
Lemma X13_density_profile_decreasing_witness :
  NFWProfile.density_profile flat_profile (1/2) 5
  < NFWProfile.density_profile flat_profile (1/4) 5.
Proof.
  destruct (X13_density_profile_decreasing flat_profile 5
              flat_profile_delta_vir flat_profile_density ltac:(lra))
    as (_ & _ & _ & Hdec).
  apply Hdec; lra.
Defined.

(** The same profile at the radius 1/2 and the concentration 5, at
    X14. *)
Lemma X14_density_is_derivative_of_cumulative_mass_witness :
  derivable_pt_lim (fun t => NFWProfile.cumulative_mass_PDF t 5) (1/2)
    (3 * (1/2) * (1/2) * NFWProfile.density_profile flat_profile (1/2) 5
     / (NFWProfile.delta_vir flat_profile
        * NFWProfile.cosmic_matter_density flat_profile)).
Proof.
  apply (X14_density_is_derivative_of_cumulative_mass flat_profile (1/2) 5).
  - apply Rgt_not_eq, flat_profile_delta_vir.
  - apply Rgt_not_eq, flat_profile_density.
  - lra.
  - lra.
Defined.

(** The concentration 5 and the radius 1/2 at X15. *)
Lemma X15_cumulative_mass_PDF_invertible_witness :
  0 < NFWProfile.cumulative_mass_PDF (1/2) 5 <= 1.
Proof.
  destruct (X15_cumulative_mass_PDF_invertible 5 ltac:(lra))
    as (Hrange & _ & _).
  apply Hrange. lra.
Defined.

(* ------------------------------------------------------------------ *)
(** ** The lookup table *)

Section Grid.

Lemma nth_map_seq (f : nat -> R) (n i : nat) :
  (i < n)%nat -> nth i (map f (seq 0 n)) 0 = f i.
Proof.
  intros Hi.
  rewrite (nth_indep _ 0 (f 0%nat)) by now rewrite length_map, length_seq.
  rewrite (map_nth f), seq_nth by exact Hi. reflexivity.
Qed.

Lemma linspace_length (start stop : R) (num : nat) :
  length (Np.linspace start stop num) = num.
Proof.
  destruct num as [|[|num]]; try reflexivity.
  unfold Np.linspace. now rewrite length_map, length_seq.
Qed.

Lemma linspace_nth (start stop : R) (num i : nat) :
  (2 <= num)%nat -> (i < num)%nat ->
  nth i (Np.linspace start stop num) 0
  = start + INR i * ((stop - start) / INR (num - 1)).
Proof.
  intros Hnum Hi. destruct num as [|[|num]]; try lia.
  unfold Np.linspace. now apply nth_map_seq.
Qed.

Lemma linspace_increasing (start stop : R) (num i j : nat) :
  start < stop -> (i < j)%nat -> (j < num)%nat ->
  nth i (Np.linspace start stop num) 0 < nth j (Np.linspace start stop num) 0.
Proof.
  intros Hlt Hij Hj.
  rewrite !linspace_nth by lia.
  assert (Hn : 0 < INR (num - 1)) by (apply lt_0_INR; lia).
  assert (Hstep : 0 < (stop - start) / INR (num - 1))
    by (apply Rdiv_lt_0_compat; lra).
  apply lt_INR in Hij. nra.
Qed.

Lemma linspace_range (start stop : R) (num i : nat) :
  start <= stop -> (i < num)%nat ->
  start <= nth i (Np.linspace start stop num) 0 <= stop.
Proof.
  intros Hle Hi. destruct num as [|[|num]]; [lia | |].
  - destruct i; [cbn; lra | lia].
  - rewrite linspace_nth by lia.
    assert (Hn : 0 < INR (S (S num) - 1)) by (apply lt_0_INR; lia).
    assert (Hi' : INR i <= INR (S (S num) - 1)) by (apply le_INR; lia).
    pose proof (pos_INR i) as Hi0.
    assert (Hstep : 0 <= (stop - start) / INR (S (S num) - 1)).
    { apply Rmult_le_pos; [lra|]. apply Rlt_le, Rinv_0_lt_compat, Hn. }
    split; [nra|].
    apply Rle_trans
      with (start + INR (S (S num) - 1)
                    * ((stop - start) / INR (S (S num) - 1))); [nra|].
    apply Req_le. field. lra.
Qed.

Lemma linspace_last (start stop : R) (num : nat) :
  (2 <= num)%nat ->
  nth (num - 1) (Np.linspace start stop num) 0 = stop.
Proof.
  intros Hnum. rewrite linspace_nth by lia.
  assert (Hn : 0 < INR (num - 1)) by (apply lt_0_INR; lia).
  field. lra.
Qed.

End Grid.

Section Table.
Import NFWProfile.
Context {D : Defaults} {I : Interpolate}.

(** The radii and the concentrations of the table. *)
Definition radius_grid : list R :=
  Np.linspace default_min_rad 1 default_Npts_radius_array.

Definition concentration_grid : list R :=
  Np.linspace min_permitted_conc max_permitted_conc
    default_Npts_concen_array.

(** The abscissas of the fit for the concentration [c]. *)
Definition cumulative_grid (c : R) : list R :=
  map (fun r => cumulative_mass_PDF r c) radius_grid.

Lemma build_inv_cumu_lookup_table_unfold (self : t) :
  build_inv_cumu_lookup_table self
  = (cumu_inv_funcs <- fit_splines concentration_grid radius_grid ;;
     Ok (mk (base self) (publication self)
            (Some cumu_inv_funcs) (Some concentration_grid))).
Proof. reflexivity. Qed.

Lemma fit_splines_total (radius_array : list R) :
  forall conc_array : list R,
    (forall c : R, In c conc_array ->
       exists f : R -> R,
         spline (map (fun r => cumulative_mass_PDF r c) radius_array)
           radius_array = Ok f) ->
    exists fs : list (R -> R),
      fit_splines conc_array radius_array = Ok fs
      /\ length fs = length conc_array.
Proof.
  induction conc_array as [|c cs IH]; intros Hall; cbn.
  - now exists [].
  - destruct (Hall c (or_introl eq_refl)) as [f Hf].
    destruct IH as (fs & Hfs & Hlen).
    { intros c' Hc'. apply Hall. now right. }
    rewrite Hf, Hfs. cbn [bind]. exists (f :: fs). cbn. auto.
Qed.

Lemma fit_splines_fail (radius_array : list R) :
  forall (conc_array : list R) (c : R) (e : exn),
    In c conc_array ->
    spline (map (fun r => cumulative_mass_PDF r c) radius_array)
      radius_array = Raise e ->
    exists e' : exn, fit_splines conc_array radius_array = Raise e'.
Proof.
  induction conc_array as [|c0 cs IH]; intros c e Hin Hraise;
    [destruct Hin|].
  cbn [fit_splines].
  destruct (spline (map (fun r => cumulative_mass_PDF r c0) radius_array)
              radius_array) as [f|e0] eqn:Hf; cbn [bind];
    [|now exists e0].
  destruct Hin as [->|Hin]; [congruence|].
  destruct (IH c e Hin Hraise) as [e' He'].
  rewrite He'. cbn [bind]. now exists e'.
Qed.

(** X16. When the table is built from a radius grid of at least two
    points between a minimum radius in (0,1) and 1, and from
    concentrations between a positive minimum and a maximum that is not
    below it, every stored function has been fitted, for a positive
    concentration [c] of the grid, to abscissas that increase strictly
    along the radius grid, lie in (0,1] and end at exactly 1: the
    cumulative masses are valid abscissas of a spline, and the radii are
    its ordinates. *)
Theorem X16_table_abscissas_increase (self self' : t) :
  0 < default_min_rad < 1 ->
  (2 <= default_Npts_radius_array)%nat ->
  0 < min_permitted_conc <= max_permitted_conc ->
  build_inv_cumu_lookup_table self = Ok self' ->
  cumu_inv_conc_table self' = Some concentration_grid
  /\ exists fs : list (R -> R),
       cumu_inv_func_table self' = Some fs
       /\ Forall2
            (fun c f =>
               0 < c
               /\ spline (cumulative_grid c) radius_grid = Ok f
               /\ length (cumulative_grid c) = default_Npts_radius_array
               /\ (forall i j : nat,
                     (i < j)%nat -> (j < default_Npts_radius_array)%nat ->
                     nth i (cumulative_grid c) 0
                     < nth j (cumulative_grid c) 0)
               /\ (forall i : nat, (i < default_Npts_radius_array)%nat ->
                     0 < nth i (cumulative_grid c) 0 <= 1)
               /\ nth (default_Npts_radius_array - 1) (cumulative_grid c) 0
                  = 1)
            concentration_grid fs.
Proof.
  intros Hrad Hnum Hconc Hbuild.
  rewrite build_inv_cumu_lookup_table_unfold in Hbuild.
  destruct (fit_splines concentration_grid radius_grid) as [fs|e] eqn:Hfs;
    cbn [bind] in Hbuild; [|discriminate].
  injection Hbuild as <-. cbn. split; [reflexivity|].
  exists fs. split; [reflexivity|].
  pose proof (fit_splines_spec radius_grid concentration_grid fs Hfs)
    as Hfit.
  assert (Hin : forall c, In c concentration_grid -> 0 < c).
  { intros c Hc. destruct (In_nth _ _ 0 Hc) as (k & Hk & <-).
    unfold concentration_grid in *. rewrite linspace_length in Hk.
    pose proof (linspace_range min_permitted_conc max_permitted_conc
                  default_Npts_concen_array k (proj2 Hconc) Hk). lra. }
  assert (Hlen : length radius_grid = default_Npts_radius_array)
    by apply linspace_length.
  assert (Hr : forall i, (i < default_Npts_radius_array)%nat ->
             0 < nth i radius_grid 0 <= 1).
  { intros i Hi.
    pose proof (linspace_range default_min_rad 1
                  default_Npts_radius_array i
                  (Rlt_le _ _ (proj2 Hrad)) Hi) as Hrange.
    unfold radius_grid. lra. }
  assert (Hnth : forall c i, (i < default_Npts_radius_array)%nat ->
             nth i (cumulative_grid c) 0
             = cumulative_mass_PDF (nth i radius_grid 0) c).
  { intros c i Hi. unfold cumulative_grid.
    apply (nth_map_in_range (fun r => cumulative_mass_PDF r c)).
    now rewrite Hlen. }
  assert (Hmono : forall c r1 r2, 0 < c -> 0 < r1 -> r1 < r2 ->
            cumulative_mass_PDF r1 c < cumulative_mass_PDF r2 c).
  { intros c r1 r2 Hc H1 H12. rewrite !cumulative_mass_PDF_enclosed.
    apply Rmult_lt_compat_r.
    - apply Rinv_0_lt_compat, enclosed_pos, Hc.
    - apply enclosed_increasing.
      + apply Rlt_le, Rmult_lt_0_compat; lra.
      + apply Rmult_lt_compat_r; lra. }
  assert (Hone : forall c, 0 < c -> cumulative_mass_PDF 1 c = 1).
  { intros c Hc. rewrite cumulative_mass_PDF_enclosed, Rmult_1_l.
    apply Rdiv_diag, Rgt_not_eq, enclosed_pos, Hc. }
  assert (Hlast : nth (default_Npts_radius_array - 1) radius_grid 0 = 1)
    by (apply linspace_last; exact Hnum).
  clear Hfs. induction Hfit as [|c f cs fs' Hcf Hrest IH]; constructor.
  - pose proof (Hin c (or_introl eq_refl)) as Hc.
    split; [exact Hc|]. split; [exact Hcf|].
    split; [unfold cumulative_grid; now rewrite length_map|].
    split; [|split].
    + intros i j Hij Hj. rewrite !Hnth by lia.
      apply Hmono; [exact Hc | apply Hr; lia |].
      apply linspace_increasing; [lra | exact Hij | exact Hj].
    + intros i Hi. rewrite Hnth by exact Hi.
      destruct (Hr i Hi) as [Hpos Hle]. split.
      * rewrite cumulative_mass_PDF_enclosed.
        apply Rdiv_lt_0_compat; [|apply enclosed_pos, Hc].
        apply enclosed_pos, Rmult_lt_0_compat; lra.
      * destruct Hle as [Hlt|Heq].
        -- rewrite <- (Hone c Hc). apply Rlt_le, Hmono; lra.
        -- rewrite Heq, Hone; lra.
    + rewrite Hnth by lia. rewrite Hlast. now apply Hone.
  - apply IH. intros c' Hc'. apply Hin. now right.
Qed.

(** X17. The constructor builds the table for the object [True] alone:
    with any other flag, also a truthy one, it returns an instance
    without tables.  With [True] it returns an instance, holding one
    function per concentration of the grid, when every fit of the grid
    succeeds, and it raises when a fit raises. *)
Theorem X17_constructor_builds_table_on_True
  (dv z : value) (cosmo : astropy_cosmology) :
  (forall flag : value, flag <> PyBool true ->
     exists self : t,
       __init__ dv cosmo z flag = Ok self
       /\ cumu_inv_func_table self = None
       /\ cumu_inv_conc_table self = None)
  /\ ((forall c : R, In c concentration_grid ->
         exists f : R -> R, spline (cumulative_grid c) radius_grid = Ok f) ->
      exists (self : t) (fs : list (R -> R)),
        __init__ dv cosmo z (PyBool true) = Ok self
        /\ cumu_inv_func_table self = Some fs
        /\ length fs = default_Npts_concen_array
        /\ cumu_inv_conc_table self = Some concentration_grid
        /\ length concentration_grid = default_Npts_concen_array
        /\ publication self = ["arXiv:9611107"])
  /\ (forall (c : R) (e : exn),
        In c concentration_grid ->
        spline (cumulative_grid c) radius_grid = Raise e ->
        exists e' : exn, __init__ dv cosmo z (PyBool true) = Raise e').
Proof.
  split; [|split].
  - intros flag Hflag. unfold __init__.
    destruct flag as [| [|] | | | |];
      try (eexists; repeat split; reflexivity).
    now elim Hflag.
  - intros Hall.
    destruct (fit_splines_total radius_grid concentration_grid Hall)
      as (fs & Hfs & Hlen).
    unfold __init__. rewrite build_inv_cumu_lookup_table_unfold, Hfs.
    cbn [bind]. eexists. exists fs.
    split; [reflexivity|]. cbn.
    split; [reflexivity|]. split.
    + rewrite Hlen. apply linspace_length.
    + split; [reflexivity|]. split; [apply linspace_length | reflexivity].
  - intros c e Hin Hraise.
    destruct (fit_splines_fail radius_grid concentration_grid c e Hin Hraise)
      as [e' He'].
    exists e'. unfold __init__.
    now rewrite build_inv_cumu_lookup_table_unfold, He'.
Qed.

End Table.

(** The small grid and piecewise linear fits at X16. *)
Lemma X16_table_abscissas_increase_witness :
  exists self' : NFWProfile.t,
    @NFWProfile.build_inv_cumu_lookup_table small_grid_defaults
      linear_interpolate flat_profile = Ok self'
    /\ NFWProfile.cumu_inv_conc_table self'
       = Some (@concentration_grid small_grid_defaults).
Proof.
  assert (Hbuild : exists self' : NFWProfile.t,
             @NFWProfile.build_inv_cumu_lookup_table small_grid_defaults
               linear_interpolate flat_profile = Ok self')
    by (eexists; reflexivity).
  destruct Hbuild as [self' Hbuild].
  assert (Hrad : 0 < @default_min_rad small_grid_defaults < 1)
    by (cbn; lra).
  assert (Hnum : (2 <= @default_Npts_radius_array small_grid_defaults)%nat)
    by (cbn; lia).
  assert (Hconc : 0 < @min_permitted_conc small_grid_defaults
                  <= @max_permitted_conc small_grid_defaults)
    by (cbn; lra).
  destruct (@X16_table_abscissas_increase small_grid_defaults
              linear_interpolate flat_profile self' Hrad Hnum Hconc Hbuild)
    as [Htable _].
  exists self'. split; [exact Hbuild | exact Htable].
Defined.

(** The flag [1], which is truthy and is not [True], at X17. *)
Lemma X17_constructor_builds_table_on_True_witness :
  exists self : NFWProfile.t,
    @NFWProfile.__init__ small_grid_defaults linear_interpolate
      (PyInt 200) flat_cosmology (PyFloat 1.5) (PyInt 1) = Ok self
    /\ NFWProfile.cumu_inv_func_table self = None.
Proof.
  destruct (@X17_constructor_builds_table_on_True small_grid_defaults
              linear_interpolate (PyInt 200) (PyFloat 1.5) flat_cosmology)
    as [Hflag _].
  destruct (Hflag (PyInt 1) ltac:(discriminate)) as (self & Hinit & Hf & _).
  exists self. split; [exact Hinit | exact Hf].
Defined.

(* ------------------------------------------------------------------ *)
(** ** Construction from a supplied dictionary *)

Section SuppliedParameters.
Import Zheng07_HOD_Model.
Context {SF : SpecialFunctions}.

(** X18. A parameter dictionary passed to the constructor of the
    occupation model is stored as it is: the constructor does not look
    at the threshold, issues no warning, sets no threshold and accepts
    any dictionary.  A key that is missing shows only when an occupation
    is asked for, as the [KeyError] of that key. *)
Theorem X18_supplied_parameters_are_not_checked
  (d : dict R) (threshold : value) :
  exists self : t,
    __init__ (Some d) threshold = ([], Ok self)
    /\ parameter_dict self = d
    /\ Zheng07_HOD_Model.threshold self = None
    /\ hod_model_nickname self = "Zheng07"
    /\ (forall (logM : list R) (k : string),
          first_missing d ["logMmin_cen"; "sigma_logM"] = Some k ->
          mean_ncen self (NdArray logM) = Raise (KeyError k))
    /\ (forall (logM : list R) (k : string),
          first_missing d
            ["logM0_sat"; "logM1_sat"; "logMmin_cen"; "sigma_logM";
             "alpha_sat"] = Some k ->
          mean_nsat self (NdArray logM) = Raise (KeyError k)).
Proof.
  exists (mk "Zheng07" "arXiv:0703457" d None).
  repeat split.
  - intros logM k Hk. now apply mean_ncen_missing_key.
  - intros logM k Hk. now apply mean_nsat_missing_key.
Qed.

End SuppliedParameters.

(** A dictionary with one key and a threshold that is a string, at
    X18. *)
Lemma X18_supplied_parameters_are_not_checked_witness :
  exists self : Zheng07_HOD_Model.t,
    Zheng07_HOD_Model.__init__ (Some [("logMmin_cen", 12)]) (PyStr "bright")
    = ([], Ok self)
    /\ @Zheng07_HOD_Model.mean_ncen real_special_functions self
         (NdArray [12; 13]) = Raise (KeyError "sigma_logM").
Proof.
  destruct (@X18_supplied_parameters_are_not_checked real_special_functions
              [("logMmin_cen", 12)] (PyStr "bright"))
    as (self & Hinit & _ & _ & _ & Hcen & _).
  exists self. split; [exact Hinit|].
  apply Hcen. reflexivity.
Defined.

(* ------------------------------------------------------------------ *)
(** ** Profiles over a physical cosmology *)

Section ConstructedProfile.
Import NFWProfile.
Context {D : Defaults} {I : Interpolate}.

(** X19. Over a cosmology with a Hubble constant that is not 0, a
    positive critical density today and a positive matter fraction, an
    instance that the constructor returns has the cosmic matter density
    [10**4 * critical_density(0) * Om0 / H0**2], which is positive; for
    every concentration [c > 0] its density profile is positive and
    decreases strictly with the radius, and at every radius [r > 0] the
    derivative of [cumulative_mass_PDF(r, c)] is
    [r**2 * density_profile(r, c) / (120 * cosmic_matter_density)]. *)
Theorem X19_constructed_profile_is_physical
  (dv z flag : value) (cosmo : astropy_cosmology) (self : t) :
  H0 cosmo <> 0 -> 0 < critical_density cosmo 0 -> 0 < Om0 cosmo ->
  __init__ dv cosmo z flag = Ok self ->
  cosmic_matter_density self
  = 10000 * critical_density cosmo 0 * Om0 cosmo / (H0 cosmo * H0 cosmo)
  /\ 0 < cosmic_matter_density self
  /\ forall c : R, 0 < c ->
       (forall r : R, 0 < r ->
          0 < density_profile self r c
          /\ derivable_pt_lim (fun t => cumulative_mass_PDF t c) r
               (r * r * density_profile self r c
                / (120 * cosmic_matter_density self)))
       /\ (forall r1 r2 : R, 0 < r1 -> r1 < r2 ->
             density_profile self r2 c < density_profile self r1 c).
Proof.
  intros HH Hcrit Hom Hinit.
  pose proof (NFWProfile_init_base dv z flag cosmo self Hinit) as Hbase.
  assert (Hdv : delta_vir self = 360).
  { unfold delta_vir. rewrite Hbase. cbn. lra. }
  assert (Hrho : cosmic_matter_density self
                 = 10000 * critical_density cosmo 0 * Om0 cosmo
                   / (H0 cosmo * H0 cosmo)).
  { unfold cosmic_matter_density. rewrite Hbase. cbn.
    replace 100.0 with 100 by lra. field. exact HH. }
  assert (Hpos : 0 < cosmic_matter_density self).
  { rewrite Hrho. apply Rdiv_lt_0_compat; [|nra].
    repeat apply Rmult_lt_0_compat; lra. }
  assert (Hdv0 : 0 < delta_vir self) by lra.
  split; [exact Hrho|]. split; [exact Hpos|].
  intros c Hc. split.
  - intros r Hr. split; [now apply density_profile_pos|].
    assert (Hcr : 0 < c * r) by now apply Rmult_lt_0_compat.
    replace (r * r * density_profile self r c
             / (120 * cosmic_matter_density self))
      with (c * c * r / ((1 + c * r) * (1 + c * r)) * g c).
    + now apply derivable_pt_lim_cumulative.
    + unfold density_profile, rho_s. rewrite Hdv.
      replace 1.0 with 1 by lra. field.
      repeat split; lra.
  - intros r1 r2 H1 H12. now apply density_profile_decreasing.
Qed.

End ConstructedProfile.

(** The flat cosmology and the requested overdensity 200, at X19. *)
Lemma X19_constructed_profile_is_physical_witness :
  NFWProfile.density_profile flat_profile (1/2) 5
  < NFWProfile.density_profile flat_profile (1/4) 5.
Proof.
  assert (HH : H0 flat_cosmology <> 0) by (cbn; lra).
  assert (Hcrit : 0 < critical_density flat_cosmology 0) by (cbn; lra).
  assert (Hom : 0 < Om0 flat_cosmology) by (cbn; lra).
  destruct (@X19_constructed_profile_is_physical small_grid_defaults
              linear_interpolate (PyInt 200) (PyFloat 1.5) (PyBool false)
              flat_cosmology flat_profile HH Hcrit Hom eq_refl)
    as (_ & _ & Hall).
  destruct (Hall 5 ltac:(lra)) as [_ Hdec].
  apply Hdec; lra.
Defined.
